(** * sms_wsj.database.database: the catalogue accessor and the audio reader

    A shallow embedding of [SmsWsj] and [AudioReader] from
    [sms_wsj/database/database.py], with the statements the specification
    makes about them.

    Python values are a tagged union [pyval]; a numpy array is a shape with
    its cells in C order; samples are binary64 floats, as [soundfile.read]
    delivers them.  Exceptions are the [Err] side of [result].  The example
    record handed to [AudioReader.__call__] is a dict object living in a
    store, because the method assigns into it. *)

From Stdlib Require Import ZArith List Lia PrimFloat.
From stdpp Require Import base option list strings gmap.

Open Scope string_scope.
Open Scope list_scope.
Set Warnings "-register-all".

(** ** Exceptions and the error monad *)

(** Which subscripted object a [KeyError] came from.  Python's exception
    carries the key only; the tag records the source line. *)
Inductive container :=
  | Environ      (* os.environ[...]            line 69  *)
  | Example      (* example[...]               lines 150, 160, 161 *)
  | AudioPath    (* path[...]                  lines 153 - 181 *)
  | NumSamples   (* example['num_samples'][...] line 161 *)
  | Bundle.      (* data[...]                  lines 159, 173, 174 *)

(** [raise ... from e]: the exception chained as the cause, if any. *)
Inductive cause :=
  | NoCause
  | FromKeyError (c : container) (key : string).

Inductive exn :=
  | KeyError (c : container) (key : string)
  | IndexError (why : string)
  | TypeError (why : string)
  | ValueError (why : string) (from : cause)
  | RuntimeError (why : string)
  | OSError (why : string)
  | ShapeMismatchError (why : string)
  | Unspecified (why : string).

Inductive result (A : Type) :=
  | Ok (a : A)
  | Err (e : exn).
Arguments Ok {A} a.
Arguments Err {A} e.

Definition bind {A B} (m : result A) (f : A -> result B) : result B :=
  match m with
  | Ok a => f a
  | Err e => Err e
  end.

Notation "'let*' x := m 'in' k" := (bind m (fun x => k))
  (at level 10, x name, m at level 100, k at level 200).
Notation "'let*' ' p := m 'in' k" := (bind m (fun x => let 'p := x in k))
  (at level 10, p pattern, m at level 100, k at level 200).

Fixpoint mapR {A B} (f : A -> result B) (l : list A) : result (list B) :=
  match l with
  | [] => Ok []
  | a :: l' => let* b := f a in let* bs := mapR f l' in Ok (b :: bs)
  end.

(** ** Python values *)

Inductive seq_kind := PyList | PyTuple.

(** [VArr shape cells]: a numpy array, cells in row-major (C) order.  A
    numeric array has [VNum] cells; an object array holds any value. *)
Inductive pyval :=
  | VNone
  | VBool (b : bool)
  | VInt (z : Z)
  | VNum (x : float)
  | VStr (s : string)
  | VSeq (k : seq_kind) (items : list pyval)
  | VDict (entries : list (string * pyval))
  | VArr (shape : list nat) (cells : list pyval).

#[global] Instance pyval_inhabited : Inhabited pyval := populate VNone.
#[global] Instance float_inhabited : Inhabited float := populate 0%float.

(** A dict keeps its entries in insertion order; keys are unique. *)
Abbreviation dict := (list (string * pyval)).

Fixpoint dict_get (k : string) (d : dict) : option pyval :=
  match d with
  | [] => None
  | (k', v) :: d' => if String.eqb k k' then Some v else dict_get k d'
  end.

(** [d[k] = v]: overwrite in place, or append a new entry. *)
Fixpoint dict_set (k : string) (v : pyval) (d : dict) : dict :=
  match d with
  | [] => [(k, v)]
  | (k', v') :: d' =>
      if String.eqb k k' then (k', v) :: d' else (k', v') :: dict_set k v d'
  end.

Definition dict_keys (d : dict) : list string := fmap fst d.

(** [obj[key]] with a string key. *)
Definition getitem (c : container) (obj : pyval) (key : string) : result pyval :=
  match obj with
  | VDict d =>
      match dict_get key d with
      | Some v => Ok v
      | None => Err (KeyError c key)
      end
  | VArr _ _ => Err (IndexError "only integers, slices and arrays are valid indices")
  | VSeq _ _ => Err (TypeError "indices must be integers or slices, not str")
  | VStr _ => Err (TypeError "string indices must be integers")
  | _ => Err (TypeError "object is not subscriptable")
  end.

(** ** Array geometry *)

Definition size (sh : list nat) : nat := fold_right Nat.mul 1 sh.

(** Multi-index of the flat position [k], and back. *)
Fixpoint unravel (sh : list nat) (k : nat) : list nat :=
  match sh with
  | [] => []
  | _ :: sh' => k / size sh' :: unravel sh' (k mod size sh')
  end.

Fixpoint ravel (sh : list nat) (idx : list nat) : nat :=
  match sh, idx with
  | _ :: sh', i :: idx' => i * size sh' + ravel sh' idx'
  | _, _ => 0
  end.

(** [a.T]: the axes reversed. *)
Definition transpose (sh : list nat) (cells : list pyval) : pyval :=
  VArr (rev sh)
       (fmap (fun k => cells !!! ravel sh (rev (unravel (rev sh) k)))
            (seq 0 (size sh))).

(** numpy's broadcasting of two shapes, aligned at the trailing axis. *)
Definition bdim (a b : nat) : option nat :=
  if Nat.eqb a b then Some a
  else if Nat.eqb a 1 then Some b
  else if Nat.eqb b 1 then Some a
  else None.

Fixpoint bshape_rev (r1 r2 : list nat) : option (list nat) :=
  match r1, r2 with
  | [], r => Some r
  | r, [] => Some r
  | a :: r1', b :: r2' =>
      match bdim a b, bshape_rev r1' r2' with
      | Some d, Some r => Some (d :: r)
      | _, _ => None
      end
  end.

Definition broadcast_shapes (sh1 sh2 : list nat) : option (list nat) :=
  match bshape_rev (rev sh1) (rev sh2) with
  | Some r => Some (rev r)
  | None => None
  end.

(** Where the operand of shape [sh] reads for the output index [idx]. *)
Definition bidx (sh : list nat) (idx : list nat) : list nat :=
  zip_with (fun n i => if Nat.eqb n 1 then 0 else i)
           sh (drop (length idx - length sh) idx).

(** An operand axis fits the output axis it is aligned with: it has the
    same extent, or extent 1. *)
Definition fits (n1 n : nat) : Prop := n1 = n \/ n1 = 1.

(** [a[s]] along the leading axis. *)
Definition np_index (a : pyval) (s : nat) : option pyval :=
  match a with
  | VArr (n :: sh) cells =>
      if Nat.ltb s n
      then Some (VArr sh (take (size sh) (drop (s * size sh) cells)))
      else None
  | _ => None
  end.

(** What [_rec_audio_read] hands to [soundfile.read]: anything that is
    neither a list, a tuple nor a dict. *)
Definition is_leaf (file : pyval) : bool :=
  match file with
  | VSeq _ _ | VDict _ => false
  | _ => true
  end.

(** The file references of a structure, in the order they are read. *)
Fixpoint leaves (file : pyval) : list pyval :=
  match file with
  | VSeq _ items => flat_map leaves items
  | VDict entries => flat_map (fun kv => leaves kv.2) entries
  | _ => [file]
  end.

(** ** The synchronizer *)

(** Modelled from the spec: [sms_wsj.database.utils.synchronize_speech_source],
    which [AudioReader.__call__] imports, is not among the sources.  What
    follows is section 4.2 of the specification: for a source [x] of length
    [L] with offset [o], the sub-range [[lo, hi)] with [lo = max(0, -o)] and
    [hi = min(L, target_length - o)] is placed into a row of zeros at the
    destination indices [[o+lo, o+hi)]; with [hi <= lo] the row stays zero. *)
Definition place_row (x : list float) (o : Z) (target_length : nat) : list float :=
  let L := Z.of_nat (length x) in
  let lo := Z.max 0 (- o) in
  let hi := Z.min L (Z.of_nat target_length - o) in
  let zeros := replicate target_length 0%float in
  if (hi <=? lo)%Z then zeros
  else foldl (fun row i => <[Z.to_nat (o + i) := x !!! Z.to_nat i]> row)
             zeros (seqZ lo (hi - lo)).

(** Modelled from the spec: the contract of section 4.2, with its
    precondition [len(sources) == len(offsets)]; section 7 names the error
    of a length mismatch. *)
Definition synchronize (sources : list (list float)) (offsets : list Z)
                       (target_length : nat) : result (list (list float)) :=
  if decide (length sources = length offsets)
  then Ok (zip_with (fun x o => place_row x o target_length) sources offsets)
  else Err (ShapeMismatchError "offsets and sources differ in length").

(** Modelled from the spec: the arguments of the synchronizer read off the
    Python values the reader passes; [None] is an argument outside the
    types section 4.2 gives. *)
Fixpoint as_samples (cells : list pyval) : option (list float) :=
  match cells with
  | [] => Some []
  | VNum x :: cells' =>
      match as_samples cells' with
      | Some xs => Some (x :: xs)
      | None => None
      end
  | _ :: _ => None
  end.

Definition as_row (v : pyval) : option (list float) :=
  match v with
  | VArr [_] cells => as_samples cells
  | _ => None
  end.

Fixpoint as_rows (cells : list pyval) : option (list (list float)) :=
  match cells with
  | [] => Some []
  | v :: cells' =>
      match as_row v, as_rows cells' with
      | Some x, Some xs => Some (x :: xs)
      | _, _ => None
      end
  end.

(** The rows of an [(n, L)] array. *)
Definition chunks (n L : nat) (xs : list float) : list (list float) :=
  fmap (fun s => take L (drop (s * L) xs)) (seq 0 n).

(** A sequence of one-axis sample arrays: the rows of an [(n, L)] numeric
    array, or the cells of a one-axis object array. *)
Definition as_sources (v : pyval) : option (list (list float)) :=
  match v with
  | VArr [n; L] cells =>
      match as_samples cells with
      | Some xs => Some (chunks n L xs)
      | None => None
      end
  | VArr [_] cells => as_rows cells
  | _ => None
  end.

Fixpoint as_ints (items : list pyval) : option (list Z) :=
  match items with
  | [] => Some []
  | VInt z :: items' =>
      match as_ints items' with
      | Some zs => Some (z :: zs)
      | None => None
      end
  | _ :: _ => None
  end.

Definition as_offsets (v : pyval) : option (list Z) :=
  match v with
  | VSeq _ items => as_ints items
  | _ => None
  end.

Definition as_length (v : pyval) : option nat :=
  match v with
  | VInt z => if (0 <=? z)%Z then Some (Z.to_nat z) else None
  | _ => None
  end.

(** Modelled from the spec: the synchronizer as the reader calls it, on
    Python values.  The specification types its arguments (a sequence of
    one-axis arrays, a sequence of integers, a sample count) and says
    nothing about other arguments; those end in [Unspecified]. *)
Definition synchronize_speech_source (original_source offset T : pyval)
  : result pyval :=
  match as_sources original_source, as_offsets offset, as_length T with
  | Some sources, Some offsets, Some target_length =>
      let* rows := synchronize sources offsets target_length in
      Ok (VArr [length rows; target_length] (fmap VNum (concat rows)))
  | _, _, _ => Err (Unspecified "outside the contract of the synchronizer")
  end.

(** ** SmsWsj (lines 9 - 88) *)

Module SmsWsj.

(** What construction does to the outside, in order. *)
Inductive event :=
  | GetEnv (name : string)
  | BaseInit (json_path : string).

Definition newline : string := String (Ascii.ascii_of_nat 10) EmptyString.
Definition tab : string := String (Ascii.ascii_of_nat 9) EmptyString.

Definition instantiate_message (name : string) : string :=
  "To instantiate the " +:+ name +:+ " database," +:+ newline +:+
  "you have to provide the path to the json that" +:+ newline +:+
  "describes the database." +:+ newline +:+
  "This can be done with" +:+ newline +:+
  tab +:+ ">>> `" +:+ name +:+ "(<path_to_json>)`" +:+ newline +:+
  "or setting the environment variable" +:+ newline +:+
  tab +:+ "$ export SMS_WSJ_JSON=<path_to_json>" +:+ newline +:+
  "and drop the argument is python" +:+ newline +:+
  tab +:+ ">>> `" +:+ name +:+ "()`".

Section Construction.

(** [cls.__name__]. *)
Variable name : string.

(** [os.environ]. *)
Variable environ : gmap string string.

(** [lazy_dataset.database.JsonDatabase.__init__], of another package. *)
Variable database : Type.
Variable JsonDatabase_init : string -> result database.

Definition default_json_path : result string * list event :=
  match environ !! "SMS_WSJ_JSON" with
  | Some path => (Ok path, [GetEnv "SMS_WSJ_JSON"])
  | None =>
      (Err (ValueError (instantiate_message name)
                       (FromKeyError Environ "SMS_WSJ_JSON")),
       [GetEnv "SMS_WSJ_JSON"])
  end.

Definition __init__ (json_path : option string) : result database * list event :=
  let '(resolved, t) :=
    match json_path with
    | None => default_json_path
    | Some path => (Ok path, [])
    end in
  match resolved with
  | Ok path => (JsonDatabase_init path, t ++ [BaseInit path])
  | Err e => (Err e, t)
  end.

End Construction.

End SmsWsj.

(** ** AudioReader: the configuration (lines 91 - 132) *)

Record AudioReader := {
  observation : bool;
  speech_source : bool;
  sync_speech_source : bool;
  speech_reverberation_early : bool;
  speech_reverberation_tail : bool;
  speech_image : bool;
  noise_image : bool;
  rir : bool
}.

(** The field defaults of the dataclass. *)
Definition defaults : AudioReader := {|
  observation := true;
  speech_source := true;
  sync_speech_source := true;
  speech_reverberation_early := true;
  speech_reverberation_tail := true;
  speech_image := true;
  noise_image := true;
  rir := false
|}.

Definition __post_init__ (self : AudioReader) : AudioReader :=
  if speech_image self
  then {| observation := observation self;
          speech_source := speech_source self;
          sync_speech_source := sync_speech_source self;
          speech_reverberation_early := true;
          speech_reverberation_tail := true;
          speech_image := speech_image self;
          noise_image := noise_image self;
          rir := rir self |}
  else self.

(** [AudioReader(...)]: the generated [__init__] stores the arguments and
    calls [__post_init__]. *)
Definition construct (args : AudioReader) : AudioReader := __post_init__ args.

(** The streams read from [example['audio_path']], in the order of the
    method body. *)
Definition requested_paths (self : AudioReader) : list string :=
  (if observation self then ["observation"] else []) ++
  (if speech_source self then ["speech_source"] else []) ++
  (if speech_reverberation_early self then ["speech_reverberation_early"] else []) ++
  (if speech_reverberation_tail self then ["speech_reverberation_tail"] else []) ++
  (if noise_image self then ["noise_image"] else []) ++
  (if rir self then ["rir"] else []).

(** The keys the bundle gets, in the order they are assigned. *)
Definition requested (self : AudioReader) : list string :=
  (if observation self then ["observation"] else []) ++
  (if speech_source self then ["speech_source"] else []) ++
  (if speech_reverberation_early self then ["speech_reverberation_early"] else []) ++
  (if speech_reverberation_tail self then ["speech_reverberation_tail"] else []) ++
  (if speech_image self then ["speech_image"] else []) ++
  (if noise_image self then ["noise_image"] else []) ++
  (if rir self then ["rir"] else []).

(** The store: example records are dict objects, passed by reference. *)
Abbreviation loc := nat (only parsing).
Abbreviation heap := (gmap nat (list (string * pyval))).

(** ** A sample world

    Three files and a numpy that raises on what does not stack, to run the
    reader on concrete inputs. *)

Definition sample_files : list (string * (list nat * list float)) :=
  [ ("obs.wav", ([3; 2], [1; 2; 3; 4; 5; 6]%float));
    ("s0.wav", ([3], [10; 20; 30]%float));
    ("s1.wav", ([3], [40; 50; 60]%float));
    ("e0.wav", ([3; 2], [1; 2; 3; 4; 5; 6]%float));
    ("e1.wav", ([3; 2], [7; 8; 9; 10; 11; 12]%float));
    ("t0.wav", ([3; 2], [100; 200; 300; 400; 500; 600]%float));
    ("t1.wav", ([4; 2], [1; 2; 3; 4; 5; 6; 7; 8]%float)) ].

Fixpoint find_file {A} (p : string) (files : list (string * A)) : option A :=
  match files with
  | [] => None
  | (q, a) :: files' => if String.eqb p q then Some a else find_file p files'
  end.

Definition sample_read (file : pyval) : result (list nat * list float) :=
  match file with
  | VStr p =>
      match find_file p sample_files with
      | Some a => Ok a
      | None => Err (RuntimeError ("Error opening " +:+ p +:+ ": System error."))
      end
  | _ => Err (TypeError "Invalid file")
  end.

Definition is_dict (v : pyval) : bool :=
  match v with
  | VDict _ => true
  | _ => false
  end.

Definition sample_np_array_object (items : list pyval)
  : result (list nat * list pyval) :=
  if forallb is_dict items then Ok ([length items], items)
  else Err (ValueError "setting an array element with a sequence" NoCause).

Definition sample_object_add (a b : pyval) : result pyval :=
  Err (TypeError "unsupported operand type(s) for +").

(** A record of two speakers over the sample files, and variants of it:
    a tail rendered for one speaker only, a tail of another length, a tail
    given as one file for all speakers, an observation that is not on
    disk. *)
Definition sample_paths (observation tail : pyval) : pyval :=
  VDict [ ("observation", observation);
          ("speech_source", VSeq PyList [VStr "s0.wav"; VStr "s1.wav"]);
          ("speech_reverberation_early",
           VSeq PyList [VStr "e0.wav"; VStr "e1.wav"]);
          ("speech_reverberation_tail", tail);
          ("noise_image", VStr "obs.wav") ].

Definition sample_record_with (observation tail : pyval) : list (string * pyval) :=
  [ ("audio_path", sample_paths observation tail);
    ("example_id", VStr "0_4k0c0301_4k6c030t_0");
    ("num_samples",
     VDict [ ("observation", VInt 3);
             ("speech_source", VSeq PyList [VInt 3; VInt 3]) ]);
    ("num_speakers", VInt 2);
    ("offset", VSeq PyList [VInt 0; VInt 1]) ].

Definition sample_record : list (string * pyval) :=
  sample_record_with (VStr "obs.wav") (VSeq PyList [VStr "t0.wav"; VStr "t0.wav"]).

Definition one_tail_record : list (string * pyval) :=
  sample_record_with (VStr "obs.wav") (VSeq PyList [VStr "t0.wav"]).

Definition long_tail_record : list (string * pyval) :=
  sample_record_with (VStr "obs.wav") (VSeq PyList [VStr "t1.wav"; VStr "t1.wav"]).

Definition whole_tail_record : list (string * pyval) :=
  sample_record_with (VStr "obs.wav") (VStr "t0.wav").

Definition lost_observation_record : list (string * pyval) :=
  sample_record_with (VStr "lost.wav") (VSeq PyList [VStr "t0.wav"; VStr "t0.wav"]).

(** A reader that asks for nothing. *)
Definition silent : AudioReader := {|
  observation := false;
  speech_source := false;
  sync_speech_source := false;
  speech_reverberation_early := false;
  speech_reverberation_tail := false;
  speech_image := false;
  noise_image := false;
  rir := false
|}.

(** ** The external collaborators

    [soundfile.read], numpy's treatment of inputs that do not stack, and
    Python's [+] on the cells of an object array are not code of this
    repository: they are parameters of the development. *)

Section Reader.

(** [soundfile.read(file)] on whatever the caller passes: the samples as a
    numeric array in file order (one axis for a mono file, otherwise
    [(samples, channels)]), or the library's exception.  The sample rate it
    also returns is dropped by the caller. *)
Variable soundfile_read : pyval -> result (list nat * list float).

(** [np.array(items)] when the items are not arrays of one common shape
    (a ragged list, or a list of dicts): an object array or an exception,
    depending on the numpy release. *)
Variable np_array_object : list pyval -> result (list nat * list pyval).

(** [a + b] on two cells of which one at least is no float. *)
Variable object_add : pyval -> pyval -> result pyval.

(** ** numpy *)

(** The cells of [items] end to end when each is an array of shape [sh]. *)
Fixpoint stack_cells (sh : list nat) (items : list pyval) : option (list pyval) :=
  match items with
  | [] => Some []
  | VArr sh' d :: rest =>
      if decide (sh' = sh)
      then match stack_cells sh rest with
           | Some ds => Some (d ++ ds)
           | None => None
           end
      else None
  | _ :: _ => None
  end.

(** [np.array(items)] for a list of loaded values. *)
Definition np_array (items : list pyval) : result pyval :=
  match items with
  | [] => Ok (VArr [0] [])
  | VArr sh _ :: _ =>
      match stack_cells sh items with
      | Some cells => Ok (VArr (length items :: sh) cells)
      | None => let* '(sh', cells) := np_array_object items in Ok (VArr sh' cells)
      end
  | _ :: _ => let* '(sh', cells) := np_array_object items in Ok (VArr sh' cells)
  end.

Definition cell_add (a b : pyval) : result pyval :=
  match a, b with
  | VNum x, VNum y => Ok (VNum (x + y)%float)
  | _, _ => object_add a b
  end.

(** [np.add] on two arrays given by shape and cells. *)
Definition np_add (sh1 : list nat) (d1 : list pyval)
                  (sh2 : list nat) (d2 : list pyval) : result pyval :=
  match broadcast_shapes sh1 sh2 with
  | None =>
      Err (ValueError "operands could not be broadcast together" NoCause)
  | Some sh =>
      let* cells :=
        mapR (fun k =>
                let idx := unravel sh k in
                cell_add (d1 !!! ravel sh1 (bidx sh1 idx))
                         (d2 !!! ravel sh2 (bidx sh2 idx)))
             (seq 0 (size sh)) in
      Ok (VArr sh cells)
  end.

(** An operand that is no array enters [np.add] as a 0-d object array. *)
Definition as_array (v : pyval) : list nat * list pyval :=
  match v with
  | VArr sh d => (sh, d)
  | _ => ([], [v])
  end.

(** [u + v] where [u] and [v] are what the loader returns: arrays or dicts. *)
Definition py_add (u v : pyval) : result pyval :=
  match u, v with
  | VArr _ _, _ | _, VArr _ _ =>
      np_add (as_array u).1 (as_array u).2 (as_array v).1 (as_array v).2
  | _, _ => Err (TypeError "unsupported operand type(s) for +")
  end.

(** ** AudioReader._rec_audio_read (lines 134 - 144) *)

Fixpoint _rec_audio_read (file : pyval) : result pyval :=
  match file with
  | VSeq _ items =>
      let* loaded := mapR _rec_audio_read items in
      np_array loaded
  | VDict entries =>
      let* loaded :=
        mapR (fun kv => let '(k, v) := kv in
                        let* a := _rec_audio_read v in Ok (k, a))
             entries in
      Ok (VDict loaded)
  | _ =>
      let* '(sh, samples) := soundfile_read file in
      Ok (transpose sh (fmap VNum samples))
  end.

(** ** AudioReader.__call__ (lines 146 - 185) *)

(** [data[key] = self._rec_audio_read(path[key])]. *)
Definition read_into (path : pyval) (key : string) (data : dict) : result dict :=
  let* file := getitem AudioPath path key in
  let* a := _rec_audio_read file in
  Ok (dict_set key a data).

(** Lines 154 - 162. *)
Definition speech_source_block (self : AudioReader) (example : dict)
    (path : pyval) (data : dict) : result dict :=
  if speech_source self then
    let* data := read_into path "speech_source" data in
    if sync_speech_source self then
      let* original_source := getitem Bundle (VDict data) "speech_source" in
      let* offset := getitem Example (VDict example) "offset" in
      let* num_samples := getitem Example (VDict example) "num_samples" in
      let* T := getitem NumSamples num_samples "observation" in
      let* synced := synchronize_speech_source original_source offset T in
      Ok (dict_set "speech_source" synced data)
    else Ok data
  else Ok data.

(** Lines 149 - 169: everything before the speech image. *)
Definition load_components (self : AudioReader) (example : dict)
    (path : pyval) : result dict :=
  let data : dict := [] in
  let* data :=
    if observation self then read_into path "observation" data else Ok data in
  let* data := speech_source_block self example path data in
  let* data :=
    if speech_reverberation_early self
    then read_into path "speech_reverberation_early" data else Ok data in
  if speech_reverberation_tail self
  then read_into path "speech_reverberation_tail" data else Ok data.

(** Lines 171 - 175. *)
Definition speech_image_block (self : AudioReader) (data : dict) : result dict :=
  if speech_image self then
    let* early := getitem Bundle (VDict data) "speech_reverberation_early" in
    let* tail := getitem Bundle (VDict data) "speech_reverberation_tail" in
    let* image := py_add early tail in
    Ok (dict_set "speech_image" image data)
  else Ok data.

(** Lines 146 - 181: the bundle [data] for the record [example]. *)
Definition load_bundle (self : AudioReader) (example : dict) : result dict :=
  let* path := getitem Example (VDict example) "audio_path" in
  let* data := load_components self example path in
  let* data := speech_image_block self data in
  let* data :=
    if noise_image self then read_into path "noise_image" data else Ok data in
  if rir self then read_into path "rir" data else Ok data.

(** The method: [example] is a reference; the bundle is stored into the
    object it points to and the same reference is returned. *)
Definition __call__ (self : AudioReader) (example : loc) (h : heap)
  : result (loc * heap) :=
  match h !! example with
  | None => Err (TypeError "object is not subscriptable")
  | Some record =>
      let* data := load_bundle self record in
      Ok (example, <[example := dict_set "audio_data" (VDict data) record]> h)
  end.




(** The structure a reference tree is loaded into: a transposed array for a
    file, [np.array] of the loaded items for a sequence, a dict with the
    same keys for a mapping. *)
Inductive loaded_as : pyval -> pyval -> Prop :=
  | loaded_file file sh samples :
      is_leaf file = true ->
      soundfile_read file = Ok (sh, samples) ->
      loaded_as file (transpose sh (VNum <$> samples))
  | loaded_seq k items loaded v :
      Forall2 loaded_as items loaded ->
      np_array loaded = Ok v ->
      loaded_as (VSeq k items) v
  | loaded_dict entries loaded :
      Forall2 (fun kv kv' => kv.1 = kv'.1 /\ loaded_as kv.2 kv'.2) entries loaded ->
      loaded_as (VDict entries) (VDict loaded).

(** * Facts *)

(** ** The error monad *)

Lemma bind_ok {A B} (m : result A) (f : A -> result B) (b : B) :
  bind m f = Ok b -> exists a, m = Ok a /\ f a = Ok b.
Proof. destruct m as [a|e]; simpl; [eauto | discriminate]. Qed.


(** Split a successful chain of binds into its steps. *)
Ltac inv_ok :=
  repeat match goal with
         | H : bind _ _ = Ok _ |- _ =>
             let a := fresh "a" in
             let Ha := fresh "Ha" in
             apply bind_ok in H; destruct H as (a & Ha & H)
         | H : Ok _ = Ok _ |- _ => injection H as H; subst
         | H : Err _ = Ok _ |- _ => discriminate H
         | H : (let '(_, _) := ?p in _) = _ |- _ => destruct p
         end.

Lemma mapR_ok {A B} (f : A -> result B) (l : list A) (bs : list B) :
  mapR f l = Ok bs <-> Forall2 (fun a b => f a = Ok b) l bs.
Proof.
  revert bs. induction l as [|a l IH]; intros bs; simpl.
  - split; [intros [= <-]; constructor | intros H; inversion H; reflexivity].
  - split.
    + intros H. inv_ok. constructor; [assumption | by apply IH].
    + intros H. inversion H as [|? b ? bs' Hb Hbs]; subst.
      rewrite Hb. simpl. apply IH in Hbs. rewrite Hbs. reflexivity.
Qed.



Lemma mapR_seq {B} (f : nat -> result B) (g : nat -> B) (n : nat) :
  (forall k, k < n -> f k = Ok (g k)) -> mapR f (seq 0 n) = Ok (g <$> seq 0 n).
Proof.
  intros H. apply mapR_ok. apply Forall2_fmap_r, Forall_Forall2_diag.
  apply Forall_forall. intros k Hk. apply elem_of_seq in Hk. apply H. lia.
Qed.

(** ** Dicts *)

Lemma dict_get_set_eq k v d : dict_get k (dict_set k v d) = Some v.
Proof.
  induction d as [|[k' v'] d IH]; simpl.
  - by rewrite String.eqb_refl.
  - destruct (String.eqb k k') eqn:E; simpl; rewrite E; [reflexivity | exact IH].
Qed.

Lemma dict_get_set_ne k k' v d :
  k <> k' -> dict_get k' (dict_set k v d) = dict_get k' d.
Proof.
  intros Hne. induction d as [|[k0 v0] d IH]; simpl.
  - destruct (String.eqb k' k) eqn:E; [| reflexivity].
    apply String.eqb_eq in E. congruence.
  - destruct (String.eqb k k0) eqn:E; simpl.
    + apply String.eqb_eq in E. subst k0.
      destruct (String.eqb k' k) eqn:E'; [| reflexivity].
      apply String.eqb_eq in E'. congruence.
    + by rewrite IH.
Qed.

Lemma dict_get_keys k d : is_Some (dict_get k d) <-> k ∈ dict_keys d.
Proof.
  unfold dict_keys. induction d as [|[k' v'] d IH]; simpl.
  - split; [intros [? [=]] | intros H; by apply not_elem_of_nil in H].
  - rewrite elem_of_cons. destruct (String.eqb k k') eqn:E.
    + apply String.eqb_eq in E. split; [auto | eauto].
    + apply String.eqb_neq in E. rewrite IH. split; [auto | intros [?|?]; [done|auto]].
Qed.

Lemma dict_keys_set k v d :
  dict_keys (dict_set k v d) =
  if decide (k ∈ dict_keys d) then dict_keys d else dict_keys d ++ [k].
Proof.
  unfold dict_keys. induction d as [|[k' v'] d IH].
  - reflexivity.
  - cbn [dict_set]. destruct (String.eqb k k') eqn:E.
    + apply String.eqb_eq in E. subst k'. rewrite !fmap_cons. cbn [fst].
      rewrite decide_True; [reflexivity | left].
    + apply String.eqb_neq in E. rewrite !fmap_cons, IH. cbn [fst].
      destruct (decide (k ∈ fst <$> d)) as [Hin|Hin].
      * rewrite decide_True; [reflexivity | by right].
      * rewrite decide_False; [reflexivity |].
        intros [?|?]%elem_of_cons; done.
Qed.

(** ** Induction over nested values *)

Lemma pyval_nested_ind (P : pyval -> Prop) :
  P VNone ->
  (forall b, P (VBool b)) ->
  (forall z, P (VInt z)) ->
  (forall x, P (VNum x)) ->
  (forall s, P (VStr s)) ->
  (forall k items, Forall P items -> P (VSeq k items)) ->
  (forall entries, Forall (fun kv => P kv.2) entries -> P (VDict entries)) ->
  (forall sh cells, P (VArr sh cells)) ->
  forall v, P v.
Proof.
  intros HNone HBool HInt HNum HStr HSeq HDict HArr.
  fix IH 1. intros [| b | z | x | s | k items | entries | sh cells].
  - exact HNone.
  - apply HBool.
  - apply HInt.
  - apply HNum.
  - apply HStr.
  - apply HSeq. induction items as [|v items IHitems]; constructor.
    + apply IH.
    + exact IHitems.
  - apply HDict. induction entries as [|[k v] entries IHentries]; constructor.
    + simpl. apply IH.
    + exact IHentries.
  - apply HArr.
Qed.

(** ** Array geometry *)

#[local] Arguments Nat.div : simpl never.
#[local] Arguments Nat.modulo : simpl never.

Lemma size_cons n sh : size (n :: sh) = n * size sh.
Proof. reflexivity. Qed.

Lemma length_unravel sh k : length (unravel sh k) = length sh.
Proof. revert k. induction sh as [|n sh IH]; intros k; simpl; auto. Qed.

Lemma ravel_unravel sh k : k < size sh -> ravel sh (unravel sh k) = k.
Proof.
  revert k. induction sh as [|n sh IH]; intros k Hk.
  - simpl in *. lia.
  - rewrite size_cons in Hk. cbn [unravel ravel].
    assert (size sh <> 0) by (intros E; rewrite E in Hk; lia).
    rewrite IH by (apply Nat.mod_upper_bound; assumption).
    pose proof (Nat.div_mod_eq k (size sh)). lia.
Qed.

(** An index inside the shape reads itself: no axis of extent 1 moves it. *)
Lemma bidx_unravel sh k : k < size sh -> bidx sh (unravel sh k) = unravel sh k.
Proof.
  unfold bidx. rewrite length_unravel, Nat.sub_diag, drop_0.
  revert k. induction sh as [|n sh IH]; intros k Hk; [reflexivity |].
  rewrite size_cons in Hk. cbn [unravel zip_with].
  assert (size sh <> 0) by (intros E; rewrite E in Hk; lia).
  rewrite IH by (apply Nat.mod_upper_bound; assumption). f_equal.
  destruct (Nat.eqb n 1) eqn:E; [| reflexivity].
  apply Nat.eqb_eq in E. subst n. symmetry. apply Nat.div_small. lia.
Qed.

Lemma bdim_diag a : bdim a a = Some a.
Proof. unfold bdim. by rewrite Nat.eqb_refl. Qed.

Lemma bshape_rev_diag r : bshape_rev r r = Some r.
Proof.
  induction r as [|a r IH]; [reflexivity |].
  simpl. by rewrite bdim_diag, IH.
Qed.

Lemma broadcast_shapes_diag sh : broadcast_shapes sh sh = Some sh.
Proof. unfold broadcast_shapes. by rewrite bshape_rev_diag, rev_involutive. Qed.

(** Two aligned axes that differ, neither of extent 1, do not broadcast. *)
Lemma bshape_rev_clash r1 r2 i a b :
  r1 !! i = Some a -> r2 !! i = Some b -> a <> b -> a <> 1 -> b <> 1 ->
  bshape_rev r1 r2 = None.
Proof.
  revert r2 i. induction r1 as [|a1 r1 IH]; intros [|b1 r2] [|i] H1 H2 Hab Ha Hb;
    try discriminate; simpl in *.
  - injection H1 as ->. injection H2 as ->. unfold bdim.
    destruct (Nat.eqb_spec a b); [done |].
    destruct (Nat.eqb_spec a 1); [done |].
    destruct (Nat.eqb_spec b 1); [done | reflexivity].
  - rewrite (IH r2 i) by assumption. by destruct (bdim a1 b1).
Qed.

(** ** numpy *)

Lemma transpose_shape sh cells :
  exists cells', transpose sh cells = VArr (rev sh) cells' /\ length cells' = size sh.
Proof.
  unfold transpose. eexists. split; [reflexivity |].
  by rewrite length_fmap, length_seq.
Qed.

(** A one-axis array is its own transpose. *)
Lemma transpose_1d n cells :
  length cells = n -> transpose [n] cells = VArr [n] cells.
Proof.
  intros Hlen. unfold transpose. simpl rev. f_equal.
  apply list_eq. intros k. rewrite list_lookup_fmap.
  destruct (decide (k < n)) as [Hk|Hk].
  - rewrite lookup_seq_lt by (simpl; lia). simpl.
    rewrite Nat.div_1_r, Nat.mul_1_r, Nat.add_0_r.
    symmetry. apply list_lookup_lookup_total_lt. lia.
  - rewrite lookup_seq_ge by (simpl; lia). simpl.
    symmetry. apply lookup_ge_None. lia.
Qed.

(** The cell [(j, i)] of the transpose of an [(s, c)] array is its [(i, j)]. *)
Lemma transpose_2d s c cells i j :
  i < s -> j < c ->
  exists cells',
    transpose [s; c] cells = VArr [c; s] cells' /\
    length cells' = c * s /\
    cells' !! (j * s + i) = Some (cells !!! (i * c + j)).
Proof.
  intros Hi Hj. unfold transpose. eexists. split; [reflexivity |].
  split; [rewrite length_fmap, length_seq; simpl; lia |].
  rewrite list_lookup_fmap, lookup_seq_lt by (simpl; nia).
  simpl. f_equal. f_equal.
  rewrite !Nat.mul_1_r, !Nat.div_1_r, !Nat.add_0_r.
  rewrite Nat.div_add_l, Nat.div_small, Nat.add_0_r by lia.
  replace (j * s + i) with (i + j * s) by lia.
  rewrite Nat.Div0.mod_add, Nat.mod_small by lia. reflexivity.
Qed.

Lemma stack_cells_ok sh items cells :
  stack_cells sh items = Some cells <->
  exists arrays, items = VArr sh <$> arrays /\ cells = concat arrays.
Proof.
  revert cells. induction items as [|v items IH]; intros cells; simpl.
  - split.
    + intros [= <-]. by exists [].
    + intros ([|??] & ? & ->); [reflexivity | discriminate].
  - split.
    + destruct v; try discriminate. case_decide; [subst | discriminate].
      destruct (stack_cells sh items) as [ds|] eqn:E; [| discriminate].
      intros [= <-]. destruct (proj1 (IH ds) eq_refl) as (arrays & -> & ->).
      by exists (cells0 :: arrays).
    + intros ([|d arrays] & Hitems & ->); [discriminate |].
      rewrite fmap_cons in Hitems. injection Hitems as -> ->.
      rewrite decide_True by reflexivity.
      assert (stack_cells sh (VArr sh <$> arrays) = Some (concat arrays)) as ->
        by (apply IH; eauto).
      reflexivity.
Qed.

(** Arrays of one common shape stack along a new leading axis. *)
Lemma np_array_stack sh arrays :
  arrays <> [] ->
  np_array (VArr sh <$> arrays) = Ok (VArr (length arrays :: sh) (concat arrays)).
Proof.
  intros Hne. destruct arrays as [|d arrays]; [done |].
  unfold np_array. rewrite fmap_cons.
  assert (stack_cells sh (VArr sh d :: (VArr sh <$> arrays))
          = Some (concat (d :: arrays))) as ->.
  { apply stack_cells_ok. by exists (d :: arrays). }
  by rewrite length_cons, length_fmap.
Qed.

(** Equal shapes: plain cell-by-cell addition. *)
Lemma np_add_same_shape sh (xs ys : list float) :
  length xs = size sh -> length ys = size sh ->
  np_add sh (VNum <$> xs) sh (VNum <$> ys)
  = Ok (VArr sh (VNum <$> zip_with PrimFloat.add xs ys)).
Proof.
  intros Hx Hy. unfold np_add. rewrite broadcast_shapes_diag.
  rewrite (mapR_seq _ (fun k => VNum ((xs !!! k) + (ys !!! k))%float)).
  - simpl. do 2 f_equal. apply list_eq. intros k.
    rewrite !list_lookup_fmap. destruct (decide (k < size sh)) as [Hk|Hk].
    + rewrite lookup_seq_lt by lia. simpl.
      rewrite lookup_zip_with.
      rewrite (list_lookup_lookup_total_lt xs k) by lia.
      rewrite (list_lookup_lookup_total_lt ys k) by lia. reflexivity.
    + rewrite lookup_seq_ge by lia. simpl.
      rewrite lookup_zip_with.
      rewrite (lookup_ge_None_2 xs k) by lia. reflexivity.
  - intros k Hk. cbv zeta. rewrite bidx_unravel, ravel_unravel by assumption.
    rewrite (list_lookup_total_fmap VNum xs k), (list_lookup_total_fmap VNum ys k)
      by lia.
    reflexivity.
Qed.

(** Shapes that do not broadcast: numpy raises before touching a cell. *)
Lemma np_add_clash sh1 d1 sh2 d2 :
  broadcast_shapes sh1 sh2 = None ->
  np_add sh1 d1 sh2 d2
  = Err (ValueError "operands could not be broadcast together" NoCause).
Proof. intros H. unfold np_add. by rewrite H. Qed.

Lemma py_add_arrays sh1 d1 sh2 d2 :
  py_add (VArr sh1 d1) (VArr sh2 d2) = np_add sh1 d1 sh2 d2.
Proof. reflexivity. Qed.
(** ** The loader *)

Lemma rec_audio_read_leaf file :
  is_leaf file = true ->
  _rec_audio_read file =
  let* '(sh, samples) := soundfile_read file in
  Ok (transpose sh (VNum <$> samples)).
Proof. destruct file; simpl; intros; (reflexivity || discriminate). Qed.

Lemma rec_audio_read_seq k items :
  _rec_audio_read (VSeq k items) =
  let* loaded := mapR _rec_audio_read items in np_array loaded.
Proof. reflexivity. Qed.

Lemma mapR_ext {A B} (f g : A -> result B) (l : list A) :
  (forall a, f a = g a) -> mapR f l = mapR g l.
Proof.
  intros H. induction l as [|a l IH]; simpl; [reflexivity |].
  by rewrite H, IH.
Qed.

Lemma rec_audio_read_dict entries :
  _rec_audio_read (VDict entries) =
  let* loaded :=
    mapR (fun kv => let* a := _rec_audio_read kv.2 in Ok (kv.1, a)) entries in
  Ok (VDict loaded).
Proof.
  simpl. f_equal. apply mapR_ext. by intros [k v].
Qed.



(** ** The blocks of [__call__] *)

Lemma read_into_ok path key data data' :
  read_into path key data = Ok data' <->
  exists file a,
    getitem AudioPath path key = Ok file /\
    _rec_audio_read file = Ok a /\
    data' = dict_set key a data.
Proof.
  unfold read_into. split.
  - intros H. inv_ok. eauto.
  - intros (file & a & -> & Ha & ->). simpl. rewrite Ha. reflexivity.
Qed.

(** An optional read touches its own key only. *)
Lemma cond_read_frame (b : bool) path key data data' k :
  (if b then read_into path key data else Ok data) = Ok data' ->
  k <> key -> dict_get k data' = dict_get k data.
Proof.
  destruct b; [| by intros [= <-]].
  intros (file & a & _ & _ & ->)%read_into_ok Hne.
  apply dict_get_set_ne. congruence.
Qed.

Lemma cond_read_sets path key data data' :
  read_into path key data = Ok data' ->
  exists file a,
    getitem AudioPath path key = Ok file /\
    _rec_audio_read file = Ok a /\
    dict_get key data' = Some a.
Proof.
  intros (file & a & Hfile & Ha & ->)%read_into_ok.
  exists file, a. by rewrite dict_get_set_eq.
Qed.

Lemma speech_source_block_frame self example path data data' k :
  speech_source_block self example path data = Ok data' ->
  k <> "speech_source" -> dict_get k data' = dict_get k data.
Proof.
  unfold speech_source_block. intros H Hne.
  destruct (speech_source self); [| by injection H as <-].
  apply bind_ok in H as (d1 & (file & a & _ & _ & ->)%read_into_ok & H).
  destruct (sync_speech_source self).
  - inv_ok. rewrite !dict_get_set_ne by congruence. reflexivity.
  - injection H as <-. rewrite dict_get_set_ne by congruence. reflexivity.
Qed.

Lemma speech_image_block_frame self data data' k :
  speech_image_block self data = Ok data' ->
  k <> "speech_image" -> dict_get k data' = dict_get k data.
Proof.
  unfold speech_image_block. intros H Hne.
  destruct (speech_image self); [| by injection H as <-].
  inv_ok. rewrite dict_get_set_ne by congruence. reflexivity.
Qed.

(** After lines 149 - 169 a requested reverberation component is in the
    bundle, as the loader returned it. *)
Lemma load_components_early self example path data :
  speech_reverberation_early self = true ->
  load_components self example path = Ok data ->
  exists file a,
    getitem AudioPath path "speech_reverberation_early" = Ok file /\
    _rec_audio_read file = Ok a /\
    dict_get "speech_reverberation_early" data = Some a.
Proof.
  unfold load_components. intros Hflag H. rewrite Hflag in H.
  apply bind_ok in H as (d1 & _ & H).
  apply bind_ok in H as (d2 & _ & H).
  apply bind_ok in H as (d3 & (file & a & Hfile & Ha & Hget)%cond_read_sets & H).
  exists file, a. split; [assumption |]. split; [assumption |].
  rewrite (cond_read_frame _ _ _ _ _ _ H) by discriminate. assumption.
Qed.

Lemma load_components_tail self example path data :
  speech_reverberation_tail self = true ->
  load_components self example path = Ok data ->
  exists file a,
    getitem AudioPath path "speech_reverberation_tail" = Ok file /\
    _rec_audio_read file = Ok a /\
    dict_get "speech_reverberation_tail" data = Some a.
Proof.
  unfold load_components. intros Hflag H. rewrite Hflag in H.
  apply bind_ok in H as (d1 & _ & H).
  apply bind_ok in H as (d2 & _ & H).
  apply bind_ok in H as (d3 & _ & H).
  by apply cond_read_sets in H.
Qed.

Lemma call_ok self example h example' h' :
  __call__ self example h = Ok (example', h') <->
  exists record data,
    h !! example = Some record /\
    load_bundle self record = Ok data /\
    example' = example /\
    h' = <[example := dict_set "audio_data" (VDict data) record]> h.
Proof.
  unfold __call__. split.
  - destruct (h !! example) as [record|]; [| discriminate].
    destruct (load_bundle self record) as [data|] eqn:E; simpl; [| discriminate].
    intros [= <- <-]. eauto 10.
  - intros (record & data & -> & -> & -> & ->). reflexivity.
Qed.

Lemma load_bundle_ok self record data :
  load_bundle self record = Ok data ->
  exists path d4 d5 d6,
    getitem Example (VDict record) "audio_path" = Ok path /\
    load_components self record path = Ok d4 /\
    speech_image_block self d4 = Ok d5 /\
    (if noise_image self then read_into path "noise_image" d5 else Ok d5) = Ok d6 /\
    (if rir self then read_into path "rir" d6 else Ok d6) = Ok data.
Proof.
  unfold load_bundle. intros H.
  apply bind_ok in H as (path & Hpath & H).
  apply bind_ok in H as (d4 & H4 & H).
  apply bind_ok in H as (d5 & H5 & H).
  apply bind_ok in H as (d6 & H6 & H).
  exists path, d4, d5, d6. auto.
Qed.

(** What the later blocks leave alone. *)
Lemma load_bundle_tail_frame self record path d4 data k :
  getitem Example (VDict record) "audio_path" = Ok path ->
  load_components self record path = Ok d4 ->
  load_bundle self record = Ok data ->
  k <> "speech_image" -> k <> "noise_image" -> k <> "rir" ->
  dict_get k data = dict_get k d4.
Proof.
  intros Hpath H4 H ? ? ?.
  apply load_bundle_ok in H as (path' & d4' & d5 & d6 & Hpath' & H4' & H5 & H6 & H7).
  assert (path' = path) as -> by congruence.
  assert (d4' = d4) as -> by congruence.
  rewrite (cond_read_frame _ _ _ _ _ _ H7) by assumption.
  rewrite (cond_read_frame _ _ _ _ _ _ H6) by assumption.
  by rewrite (speech_image_block_frame _ _ _ _ H5).
Qed.
(** ** The configuration *)

Lemma post_init_forces self :
  speech_image self = true ->
  speech_reverberation_early (__post_init__ self) = true /\
  speech_reverberation_tail (__post_init__ self) = true /\
  speech_image (__post_init__ self) = true.
Proof. unfold __post_init__. intros H. rewrite H. simpl. auto. Qed.

Lemma post_init_speech_image self :
  speech_image (__post_init__ self) = speech_image self.
Proof. unfold __post_init__. by destruct (speech_image self) eqn:E. Qed.

(** A sub-array of a numeric array. *)
Lemma np_index_numeric n sh (xs : list float) s :
  s < n ->
  np_index (VArr (n :: sh) (VNum <$> xs)) s
  = Some (VArr sh (VNum <$> take (size sh) (drop (s * size sh) xs))).
Proof.
  intros Hs. unfold np_index.
  destruct (Nat.ltb_spec s n); [| lia].
  by rewrite fmap_take, fmap_drop.
Qed.

Lemma np_index_bound a s v : np_index a s = Some v ->
  exists n sh cells, a = VArr (n :: sh) cells /\ s < n.
Proof.
  destruct a as [| | | | | | |[|n sh] cells]; try discriminate. simpl.
  destruct (Nat.ltb_spec s n); [| discriminate]. eauto 10.
Qed.

(** The sum of two equal-shaped numeric arrays, read speaker by speaker. *)
Lemma py_add_speakerwise sh (xs ys : list float) s e_s t_s :
  length xs = size sh -> length ys = size sh ->
  np_index (VArr sh (VNum <$> xs)) s = Some e_s ->
  np_index (VArr sh (VNum <$> ys)) s = Some t_s ->
  exists i_s,
    np_index (VArr sh (VNum <$> zip_with PrimFloat.add xs ys)) s = Some i_s /\
    py_add e_s t_s = Ok i_s.
Proof.
  intros Hx Hy He Ht.
  destruct (np_index_bound _ _ _ He) as (n & sh' & cells & [= -> _] & Hs).
  rewrite np_index_numeric in He, Ht by assumption.
  injection He as <-. injection Ht as <-.
  rewrite np_index_numeric by assumption. eexists. split; [reflexivity |].
  rewrite size_cons in Hx, Hy.
  rewrite py_add_arrays, np_add_same_shape.
  - by rewrite zip_with_drop, zip_with_take.
  - rewrite length_take_le; [reflexivity |]. rewrite length_drop. nia.
  - rewrite length_take_le; [reflexivity |]. rewrite length_drop. nia.
Qed.

(** ** The keys of the bundle *)

Ltac fresh_key :=
  repeat match goal with
         | H : dict_keys _ = _ |- _ => rewrite H; clear H
         end;
  repeat match goal with
         | |- context [if ?b then _ else _] => destruct b
         end;
  apply (bool_decide_unpack _); vm_compute; exact I.

Lemma read_into_keys path key data data' :
  read_into path key data = Ok data' ->
  key ∉ dict_keys data -> dict_keys data' = dict_keys data ++ [key].
Proof.
  intros (file & a & _ & _ & ->)%read_into_ok Hfresh.
  rewrite dict_keys_set. by rewrite decide_False.
Qed.

Lemma cond_read_keys (b : bool) path key data data' :
  (if b then read_into path key data else Ok data) = Ok data' ->
  key ∉ dict_keys data ->
  dict_keys data' = dict_keys data ++ (if b then [key] else []).
Proof.
  destruct b.
  - apply read_into_keys.
  - intros [= <-] _. by rewrite app_nil_r.
Qed.

Lemma speech_source_block_keys self example path data data' :
  speech_source_block self example path data = Ok data' ->
  "speech_source" ∉ dict_keys data ->
  dict_keys data' =
  dict_keys data ++ (if speech_source self then ["speech_source"] else []).
Proof.
  unfold speech_source_block. intros H Hfresh.
  destruct (speech_source self); [| injection H as <-; by rewrite app_nil_r].
  apply bind_ok in H as (d1 & H1 & H).
  pose proof (read_into_keys _ _ _ _ H1 Hfresh) as Hk.
  destruct (sync_speech_source self); [| by injection H as <-].
  inv_ok. rewrite dict_keys_set, decide_True; [assumption |].
  rewrite Hk. apply elem_of_app. right. left.
Qed.

Lemma speech_image_block_keys self data data' :
  speech_image_block self data = Ok data' ->
  "speech_image" ∉ dict_keys data ->
  dict_keys data' =
  dict_keys data ++ (if speech_image self then ["speech_image"] else []).
Proof.
  unfold speech_image_block. intros H Hfresh.
  destruct (speech_image self); [| injection H as <-; by rewrite app_nil_r].
  inv_ok. rewrite dict_keys_set. by rewrite decide_False.
Qed.

(** The bundle has exactly the requested streams, in the order of the
    method body. *)
Lemma load_bundle_keys self record data :
  load_bundle self record = Ok data -> dict_keys data = requested self.
Proof.
  intros (path & d4 & d5 & d6 & _ & H4 & H5 & H6 & H7)%load_bundle_ok.
  unfold load_components in H4.
  apply bind_ok in H4 as (d1 & H1 & H4).
  apply bind_ok in H4 as (d2 & H2 & H4).
  apply bind_ok in H4 as (d3 & H3 & H4).
  apply cond_read_keys in H1; [| apply not_elem_of_nil].
  apply speech_source_block_keys in H2; [| fresh_key]. rewrite H1 in H2.
  apply cond_read_keys in H3; [| fresh_key]. rewrite H2 in H3.
  apply cond_read_keys in H4; [| fresh_key]. rewrite H3 in H4.
  apply speech_image_block_keys in H5; [| fresh_key]. rewrite H4 in H5.
  apply cond_read_keys in H6; [| fresh_key]. rewrite H5 in H6.
  apply cond_read_keys in H7; [| fresh_key]. rewrite H6 in H7.
  rewrite H7. unfold requested. simpl. by rewrite <- !app_assoc.
Qed.

(** ** The synchronizer *)

Lemma length_place_fold (x : list float) (o : Z) (row : list float) (idxs : list Z) :
  length (foldl (fun row i => <[Z.to_nat (o + i) := x !!! Z.to_nat i]> row) row idxs)
  = length row.
Proof.
  revert row. induction idxs as [|i idxs IH]; intros row; simpl; [reflexivity |].
  by rewrite IH, length_insert.
Qed.

(** Writing the indices [lo, lo + len) of [x] at [o + lo, ...). *)
Lemma lookup_place_fold (x : list float) (o : Z) (len : nat) :
  forall (lo : Z) (row : list float) (p : nat),
    (0 <= lo)%Z -> (0 <= o + lo)%Z ->
    (o + lo + Z.of_nat len <= Z.of_nat (length row))%Z ->
    foldl (fun row i => <[Z.to_nat (o + i) := x !!! Z.to_nat i]> row) row
          (seqZ lo (Z.of_nat len)) !! p
    = if decide (o + lo <= Z.of_nat p < o + lo + Z.of_nat len)%Z
      then Some (x !!! Z.to_nat (Z.of_nat p - o))
      else row !! p.
Proof.
  induction len as [|len IH]; intros lo row p Hlo Holo Hfit.
  - simpl. rewrite decide_False by lia. reflexivity.
  - rewrite Nat2Z.inj_succ, seqZ_cons by lia. cbn [foldl].
    replace (Z.pred (Z.succ (Z.of_nat len))) with (Z.of_nat len) by lia.
    rewrite IH by (rewrite ?length_insert; lia).
    destruct (decide (o + Z.succ lo <= Z.of_nat p < o + Z.succ lo + Z.of_nat len)%Z).
    + rewrite decide_True by lia. reflexivity.
    + destruct (decide (p = Z.to_nat (o + lo))) as [->|Hp].
      * rewrite decide_True by lia.
        rewrite list_lookup_insert_eq by lia.
        do 2 f_equal. lia.
      * rewrite decide_False by lia.
        by rewrite list_lookup_insert_ne.
Qed.

Lemma length_place_row x o T : length (place_row x o T) = T.
Proof.
  unfold place_row. cbv zeta.
  match goal with |- context [Z.leb ?a ?b] => destruct (Z.leb_spec a b) end.
  - apply length_replicate.
  - by rewrite length_place_fold, length_replicate.
Qed.

Lemma lookup_place_row x o T p :
  p < T ->
  let lo := Z.max 0 (- o) in
  let hi := Z.min (Z.of_nat (length x)) (Z.of_nat T - o) in
  place_row x o T !! p =
  if decide (o + lo <= Z.of_nat p < o + hi)%Z
  then Some (x !!! Z.to_nat (Z.of_nat p - o))
  else Some 0%float.
Proof.
  intros Hp lo hi. unfold place_row. cbv zeta. fold lo hi.
  assert (replicate T 0%float !! p = Some 0%float) as Hzero.
  { apply lookup_replicate_2. lia. }
  destruct (Z.leb_spec hi lo).
  - rewrite decide_False by lia. assumption.
  - replace (hi - lo)%Z with (Z.of_nat (Z.to_nat (hi - lo))) by lia.
    rewrite lookup_place_fold by (rewrite ?length_replicate; lia).
    rewrite Hzero.
    destruct (decide (o + lo <= Z.of_nat p < o + lo + Z.of_nat (Z.to_nat (hi - lo)))%Z).
    + rewrite decide_True by lia. reflexivity.
    + rewrite decide_False by lia. reflexivity.
Qed.

Lemma length_concat_rows {A} (rows : list (list A)) n :
  Forall (fun row => length row = n) rows ->
  length (concat rows) = length rows * n.
Proof.
  induction 1 as [|row rows Hrow _ IH]; simpl; [reflexivity |].
  rewrite length_app. lia.
Qed.

Lemma as_length_some T n :
  as_length T = Some n -> T = VInt (Z.of_nat n).
Proof.
  destruct T; try discriminate. simpl.
  destruct (Z.leb_spec 0 z); [| discriminate].
  intros [= <-]. f_equal. lia.
Qed.

(** What a successful run of the synchronizer has returned. *)
Lemma synchronize_speech_source_ok original_source offset T synced :
  synchronize_speech_source original_source offset T = Ok synced ->
  exists sources offsets n,
    as_sources original_source = Some sources /\
    as_offsets offset = Some offsets /\
    T = VInt (Z.of_nat n) /\
    length sources = length offsets /\
    synced = VArr [length sources; n]
               (VNum <$> concat (zip_with (fun x o => place_row x o n)
                                          sources offsets)) /\
    length (concat (zip_with (fun x o => place_row x o n) sources offsets))
      = length sources * n.
Proof.
  unfold synchronize_speech_source, synchronize.
  destruct (as_sources original_source) as [sources|]; [| discriminate].
  destruct (as_offsets offset) as [offsets|]; [| discriminate].
  destruct (as_length T) as [n|] eqn:HT; [| discriminate].
  apply as_length_some in HT.
  destruct (decide (length sources = length offsets)) as [Hlen|]; [| discriminate].
  simpl. intros [= <-]. exists sources, offsets, n.
  assert (length (zip_with (fun x o => place_row x o n) sources offsets)
          = length sources) as Hrows.
  { rewrite length_zip_with. lia. }
  rewrite Hrows. repeat (split; [assumption || reflexivity |]).
  rewrite (length_concat_rows _ n), Hrows; [reflexivity |].
  apply Forall_forall. intros row Hrow.
  apply elem_of_lookup_zip_with in Hrow as (? & x & o & -> & _ & _).
  apply length_place_row.
Qed.
Lemma speech_source_block_synced self example path data data' :
  speech_source self = true -> sync_speech_source self = true ->
  speech_source_block self example path data = Ok data' ->
  exists file loaded offset num_samples T synced,
    getitem AudioPath path "speech_source" = Ok file /\
    _rec_audio_read file = Ok loaded /\
    getitem Example (VDict example) "offset" = Ok offset /\
    getitem Example (VDict example) "num_samples" = Ok num_samples /\
    getitem NumSamples num_samples "observation" = Ok T /\
    synchronize_speech_source loaded offset T = Ok synced /\
    dict_get "speech_source" data' = Some synced.
Proof.
  unfold speech_source_block. intros -> -> H.
  apply bind_ok in H as (d1 & (file & loaded & Hfile & Hloaded & ->)%read_into_ok & H).
  apply bind_ok in H as (src & Hsrc & H).
  cbn [getitem] in Hsrc. rewrite dict_get_set_eq in Hsrc. injection Hsrc as <-.
  apply bind_ok in H as (offset & Hoffset & H).
  apply bind_ok in H as (num_samples & Hnum & H).
  apply bind_ok in H as (T & HT & H).
  apply bind_ok in H as (synced & Hsync & [= <-]).
  exists file, loaded, offset, num_samples, T, synced.
  rewrite dict_get_set_eq. auto 10.
Qed.

(** The negative-offset example of section 8: five samples, offset -2,
    target length 3. *)
Lemma negative_offset_crops (x0 x1 x2 x3 x4 : float) :
  place_row [x0; x1; x2; x3; x4] (-2) 3 = [x2; x3; x4].
Proof. reflexivity. Qed.
Lemma rec_audio_read_loaded_as file v :
  _rec_audio_read file = Ok v -> loaded_as file v.
Proof.
  revert v.
  induction file as [| b | z | x | s | k items IH | entries IH | sh cells]
    using pyval_nested_ind; intros v H;
    try (rewrite rec_audio_read_leaf in H by reflexivity;
         apply bind_ok in H as ([sh' samples] & Hread & [= <-]);
         by apply loaded_file).
  - rewrite rec_audio_read_seq in H. apply bind_ok in H as (loaded & Hl & Hv).
    apply loaded_seq with loaded; [| assumption].
    apply mapR_ok in Hl. clear Hv.
    induction Hl as [|item a items loaded Ha _ IHl]; constructor.
    + apply (Forall_inv IH). assumption.
    + apply IHl. exact (Forall_inv_tail IH).
  - rewrite rec_audio_read_dict in H. apply bind_ok in H as (loaded & Hl & [= <-]).
    apply loaded_dict. apply mapR_ok in Hl.
    induction Hl as [|[key f] [key' a] entries loaded Ha _ IHl]; constructor.
    + simpl in *. apply bind_ok in Ha as (a' & Ha' & [= <- <-]).
      split; [reflexivity |]. apply (Forall_inv IH). assumption.
    + apply IHl. exact (Forall_inv_tail IH).
Qed.

Lemma rec_audio_read_dict_ok entries v :
  _rec_audio_read (VDict entries) = Ok v <->
  exists loaded,
    v = VDict loaded /\
    Forall2 (fun kv kv' => kv.1 = kv'.1 /\ _rec_audio_read kv.2 = Ok kv'.2)
            entries loaded.
Proof.
  rewrite rec_audio_read_dict. split.
  - intros (loaded & Hl & [= <-])%bind_ok. exists loaded. split; [reflexivity |].
    apply mapR_ok in Hl. eapply Forall2_impl; [exact Hl |].
    intros [key f] [key' a] Ha. simpl in *.
    by apply bind_ok in Ha as (a' & -> & [= <- <-]).
  - intros (loaded & -> & Hl).
    assert (mapR (fun kv => let* a := _rec_audio_read kv.2 in Ok (kv.1, a)) entries
            = Ok loaded) as ->; [| reflexivity].
    apply mapR_ok. eapply Forall2_impl; [exact Hl |].
    intros [key f] [key' a] [Hk Ha]. simpl in *. subst key'. by rewrite Ha.
Qed.

Lemma Forall2_same_keys (entries loaded : dict) (R : pyval -> pyval -> Prop) :
  Forall2 (fun kv kv' => kv.1 = kv'.1 /\ R kv.2 kv'.2) entries loaded ->
  dict_keys loaded = dict_keys entries.
Proof.
  unfold dict_keys. induction 1 as [|kv kv' ? ? [Hk _] _ IH]; [reflexivity |].
  rewrite !fmap_cons. by rewrite Hk, IH.
Qed.

(** One step that always fails makes the chain fail: run the chain from
    its first step, splitting on every step before the failing one. *)
Ltac first_step t :=
  lazymatch t with
  | bind ?m _ => first_step m
  | if ?b then _ else _ => destruct b
  | _ => let E := fresh "E" in destruct t eqn:E
  end.

Ltac chain_fails Hfail :=
  repeat first
    [ progress cbn [bind]
    | eexists; reflexivity
    | rewrite Hfail
    | match goal with |- exists e, ?t = Err e => first_step t end ].

Lemma load_bundle_read_fails self record path key e :
  getitem Example (VDict record) "audio_path" = Ok path ->
  key ∈ requested_paths self ->
  (forall data, read_into path key data = Err e) ->
  exists e', load_bundle self record = Err e'.
Proof.
  intros Hpath Hkey Hfail. unfold load_bundle. rewrite Hpath. cbn [bind].
  unfold load_components, speech_source_block, requested_paths in *.
  destruct self as [o ss sy early tail image noise r].
  cbn [observation speech_source sync_speech_source speech_reverberation_early
       speech_reverberation_tail speech_image noise_image rir] in *.
  destruct o, ss, early, tail, noise, r; cbn [app] in Hkey;
    repeat match type of Hkey with
           | _ ∈ _ :: _ => apply elem_of_cons in Hkey as [-> | Hkey]
           | _ ∈ [] => by apply not_elem_of_nil in Hkey
           end;
    chain_fails Hfail.
Qed.

(** ** Broadcasting *)

Lemma bdim_fits a b d : bdim a b = Some d -> fits a d /\ fits b d.
Proof.
  unfold bdim, fits.
  destruct (Nat.eqb_spec a b); [intros [= <-]; auto |].
  destruct (Nat.eqb_spec a 1); [intros [= <-]; auto |].
  destruct (Nat.eqb_spec b 1); [intros [= <-]; auto | discriminate].
Qed.

Lemma Forall2_fits_refl r : Forall2 fits r r.
Proof. induction r; constructor; [by left | assumption]. Qed.

Lemma bshape_rev_fits r1 r2 r :
  bshape_rev r1 r2 = Some r ->
  (exists r' q, r = r' ++ q /\ Forall2 fits r1 r') /\
  (exists r' q, r = r' ++ q /\ Forall2 fits r2 r').
Proof.
  revert r2 r. induction r1 as [|a r1 IH]; intros [|b r2] r; simpl.
  - intros [= <-]. split; exists [], []; by split; [|constructor].
  - intros [= <-]. split.
    + exists [], (b :: r2). by split; [|constructor].
    + exists (b :: r2), []. split; [by rewrite app_nil_r | apply Forall2_fits_refl].
  - intros [= <-]. split.
    + exists (a :: r1), []. split; [by rewrite app_nil_r | apply Forall2_fits_refl].
    + exists [], (a :: r1). by split; [|constructor].
  - destruct (bdim a b) as [d|] eqn:Hd; [| discriminate].
    destruct (bshape_rev r1 r2) as [r0|] eqn:Hr; [| discriminate].
    intros [= <-]. destruct (bdim_fits _ _ _ Hd) as [Ha Hb].
    destruct (IH _ _ Hr) as [(r1' & q1 & -> & H1) (r2' & q2 & Heq & H2)].
    split.
    + exists (d :: r1'), q1. split; [reflexivity | by constructor].
    + exists (d :: r2'), q2. split; [by rewrite Heq | by constructor].
Qed.

Lemma Forall2_rev {A B} (P : A -> B -> Prop) l k :
  Forall2 P l k -> Forall2 P (rev l) (rev k).
Proof.
  induction 1 as [|a b l k Hab _ IH]; simpl; [constructor |].
  apply Forall2_app; [assumption | by repeat constructor].
Qed.

(** The output shape is a prefix of leading axes followed by axes that
    each operand axis fits. *)
Lemma broadcast_shapes_fits sh1 sh2 sh :
  broadcast_shapes sh1 sh2 = Some sh ->
  (exists p s, sh = p ++ s /\ Forall2 fits sh1 s) /\
  (exists p s, sh = p ++ s /\ Forall2 fits sh2 s).
Proof.
  unfold broadcast_shapes.
  destruct (bshape_rev (rev sh1) (rev sh2)) as [r|] eqn:Hr; [| discriminate].
  intros [= <-].
  destruct (bshape_rev_fits _ _ _ Hr) as [(r1 & q1 & -> & H1) (r2 & q2 & Heq & H2)].
  split.
  - exists (rev q1), (rev r1). split; [apply rev_app_distr |].
    apply Forall2_rev in H1. by rewrite rev_involutive in H1.
  - exists (rev q2), (rev r2). split; [by rewrite Heq, rev_app_distr |].
    apply Forall2_rev in H2. by rewrite rev_involutive in H2.
Qed.

Lemma size_app p s : size (p ++ s) = size p * size s.
Proof.
  induction p as [|n p IH]; simpl; [lia |].
  change (fold_right Nat.mul 1 (p ++ s)) with (size (p ++ s)).
  change (fold_right Nat.mul 1 p) with (size p). rewrite IH. lia.
Qed.

Lemma mod_mod_mul k a b : (k mod (a * b)) mod b = k mod b.
Proof.
  rewrite (Nat.mul_comm a b), Nat.Div0.mod_mul_r.
  rewrite (Nat.mul_comm b), Nat.Div0.mod_add. apply Nat.Div0.mod_mod.
Qed.

Lemma drop_unravel_app p s k :
  k < size (p ++ s) ->
  drop (length p) (unravel (p ++ s) k) = unravel s (k mod size s).
Proof.
  revert k. induction p as [|n p IH]; intros k Hk.
  - simpl in *. by rewrite Nat.mod_small.
  - rewrite <- app_comm_cons, size_cons in Hk.
    assert (size (p ++ s) <> 0) by (intros E; rewrite E in Hk; lia).
    cbn [app unravel length drop].
    rewrite IH by (by apply Nat.mod_upper_bound).
    by rewrite size_app, mod_mod_mul.
Qed.

Lemma ravel_clamped_lt sh1 s k :
  Forall2 fits sh1 s -> k < size s ->
  ravel sh1 (zip_with (fun n i => if Nat.eqb n 1 then 0 else i) sh1 (unravel s k))
  < size sh1.
Proof.
  intros Hfits. revert k.
  induction Hfits as [|n1 n sh1 s Hn _ IH]; intros k Hk; [simpl; lia |].
  rewrite size_cons in Hk.
  assert (size s <> 0) as Hs by (intros E; rewrite E in Hk; lia).
  cbn [unravel zip_with ravel]. rewrite size_cons.
  specialize (IH (k mod size s) (Nat.mod_upper_bound _ _ Hs)).
  assert ((if Nat.eqb n1 1 then 0 else k / size s) < n1) as Hc.
  { destruct (Nat.eqb_spec n1 1) as [-> | Hne]; [lia |].
    destruct Hn as [-> | ?]; [| done].
    apply Nat.Div0.div_lt_upper_bound. lia. }
  nia.
Qed.

(** Inside the output shape every operand is read inside its own. *)
Lemma bidx_in_range sh1 sh k :
  (exists p s, sh = p ++ s /\ Forall2 fits sh1 s) ->
  k < size sh ->
  ravel sh1 (bidx sh1 (unravel sh k)) < size sh1.
Proof.
  intros (p & s & -> & Hfits) Hk. unfold bidx.
  rewrite length_unravel, length_app, (Forall2_length _ _ _ Hfits).
  replace (length p + length s - length s) with (length p) by lia.
  rewrite drop_unravel_app by assumption.
  apply ravel_clamped_lt; [assumption |].
  apply Nat.mod_upper_bound. rewrite size_app in Hk.
  intros E. rewrite E in Hk. lia.
Qed.

(** Two numeric arrays whose shapes broadcast: every cell of the sum is
    the sum of the two cells the operands are read at. *)
Lemma np_add_broadcast sh1 (xs : list float) sh2 (ys : list float) sh :
  broadcast_shapes sh1 sh2 = Some sh ->
  length xs = size sh1 -> length ys = size sh2 ->
  np_add sh1 (VNum <$> xs) sh2 (VNum <$> ys)
  = Ok (VArr sh
          ((fun k => VNum ((xs !!! ravel sh1 (bidx sh1 (unravel sh k)))
                           + (ys !!! ravel sh2 (bidx sh2 (unravel sh k))))%float)
           <$> seq 0 (size sh))).
Proof.
  intros Hsh Hx Hy. unfold np_add. rewrite Hsh.
  destruct (broadcast_shapes_fits _ _ _ Hsh) as [H1 H2].
  rewrite (mapR_seq _ (fun k =>
             VNum ((xs !!! ravel sh1 (bidx sh1 (unravel sh k)))
                   + (ys !!! ravel sh2 (bidx sh2 (unravel sh k))))%float));
    [reflexivity |].
  intros k Hk. cbv zeta.
  pose proof (bidx_in_range sh1 sh k H1 Hk).
  pose proof (bidx_in_range sh2 sh k H2 Hk).
  rewrite (list_lookup_total_fmap VNum xs), (list_lookup_total_fmap VNum ys) by lia.
  reflexivity.
Qed.

(** Shapes fail to broadcast exactly when two aligned axes clash. *)
Lemma bshape_rev_none r1 r2 :
  bshape_rev r1 r2 = None ->
  exists i a b,
    r1 !! i = Some a /\ r2 !! i = Some b /\ a <> b /\ a <> 1 /\ b <> 1.
Proof.
  revert r2. induction r1 as [|a r1 IH]; intros [|b r2]; simpl; try discriminate.
  destruct (bdim a b) as [d|] eqn:Hd.
  - destruct (bshape_rev r1 r2) eqn:Hr; [discriminate |]. intros _.
    destruct (IH _ Hr) as (i & a' & b' & ? & ? & ?).
    exists (S i), a', b'. auto.
  - intros _. exists 0, a, b. unfold bdim in Hd.
    destruct (Nat.eqb_spec a b); [discriminate |].
    destruct (Nat.eqb_spec a 1); [discriminate |].
    destruct (Nat.eqb_spec b 1); [discriminate |]. auto.
Qed.

Lemma broadcast_shapes_none sh1 sh2 :
  broadcast_shapes sh1 sh2 = None <->
  exists i a b,
    rev sh1 !! i = Some a /\ rev sh2 !! i = Some b /\ a <> b /\ a <> 1 /\ b <> 1.
Proof.
  unfold broadcast_shapes. split.
  - destruct (bshape_rev (rev sh1) (rev sh2)) eqn:Hr; [discriminate |].
    intros _. by apply bshape_rev_none.
  - intros (i & a & b & Ha & Hb & Hab & Ha1 & Hb1).
    by rewrite (bshape_rev_clash _ _ i a b).
Qed.
Lemma bshape_rev_lookup r1 r2 r i :
  bshape_rev r1 r2 = Some r ->
  r !! i = match r1 !! i, r2 !! i with
           | Some a, Some b => Some (if Nat.eqb a 1 then b else a)
           | Some a, None => Some a
           | None, Some b => Some b
           | None, None => None
           end.
Proof.
  revert r2 r i. induction r1 as [|a r1 IH]; intros [|b r2] r i; simpl.
  - by intros [= <-].
  - intros [= <-]. by destruct ((b :: r2) !! i).
  - intros [= <-]. by destruct ((a :: r1) !! i).
  - destruct (bdim a b) as [d|] eqn:Hd; [| discriminate].
    destruct (bshape_rev r1 r2) as [r0|] eqn:Hr; [| discriminate].
    intros [= <-]. destruct i as [|i]; simpl; [| by apply IH].
    f_equal. unfold bdim in Hd.
    destruct (Nat.eqb_spec a b); [injection Hd as <-; subst; by destruct (Nat.eqb b 1) |].
    destruct (Nat.eqb_spec a 1); [by injection Hd as <- |].
    destruct (Nat.eqb_spec b 1); [by injection Hd as <- | discriminate].
Qed.

(** Components whose shapes do not broadcast (on some axis, counted from
    the last, the extents differ and neither is 1): the speech image, and
    with it the call, fails with numpy's [ValueError]. *)
Lemma unbroadcastable_components_fail :
  forall self example h record path data sh1 d1 sh2 d2 i a b,
    speech_image self = true ->
    h !! example = Some record ->
    getitem Example (VDict record) "audio_path" = Ok path ->
    load_components self record path = Ok data ->
    dict_get "speech_reverberation_early" data = Some (VArr sh1 d1) ->
    dict_get "speech_reverberation_tail" data = Some (VArr sh2 d2) ->
    rev sh1 !! i = Some a -> rev sh2 !! i = Some b ->
    a <> b -> a <> 1 -> b <> 1 ->
    let e := ValueError "operands could not be broadcast together" NoCause in
    py_add (VArr sh1 d1) (VArr sh2 d2) = Err e /\
    speech_image_block self data = Err e /\
    __call__ self example h = Err e.
Proof.
  intros self example h record path data sh1 d1 sh2 d2 i a b
    Himage Hrecord Hpath Hload He Ht Ha Hb Hab Ha1 Hb1 e.
  assert (py_add (VArr sh1 d1) (VArr sh2 d2) = Err e) as Hsum.
  { rewrite py_add_arrays. apply np_add_clash. unfold broadcast_shapes.
    by rewrite (bshape_rev_clash _ _ i a b). }
  assert (speech_image_block self data = Err e) as Hblock.
  { unfold speech_image_block. rewrite Himage. cbn [getitem].
    rewrite He, Ht. cbn [bind]. by rewrite Hsum. }
  repeat split; try assumption.
  unfold __call__. rewrite Hrecord. unfold load_bundle.
  rewrite Hpath. cbn [bind]. rewrite Hload. cbn [bind]. by rewrite Hblock.
Qed.

(** ** The method body, block by block *)




(** * The claims *)

(** C1, as the code has it.  A call that returns hands back the reference
    it was given.  The record behind it has been assigned the bundle under
    ['audio_data'], in place: every other field reads as before, every
    other object of the store is untouched, and the bundle holds exactly
    the requested streams. *)
Theorem call_stores_bundle_in_place :
  forall self example h example' h',
    __call__ self example h = Ok (example', h') ->
    example' = example /\
    exists record data,
      h !! example = Some record /\
      load_bundle self record = Ok data /\
      h' !! example = Some (dict_set "audio_data" (VDict data) record) /\
      dict_get "audio_data" (dict_set "audio_data" (VDict data) record)
        = Some (VDict data) /\
      (forall k, k <> "audio_data" ->
         dict_get k (dict_set "audio_data" (VDict data) record)
         = dict_get k record) /\
      (forall l, l <> example -> h' !! l = h !! l) /\
      dict_keys data = requested self.
Proof.
  intros self example h example' h' Hcall.
  apply call_ok in Hcall as (record & data & Hrecord & Hbundle & -> & ->).
  split; [reflexivity |]. exists record, data.
  split; [assumption |]. split; [assumption |].
  split; [by rewrite lookup_insert_eq |].
  split; [apply dict_get_set_eq |].
  split; [intros k Hk; apply dict_get_set_ne; congruence |].
  split; [intros l Hl; by rewrite lookup_insert_ne |].
  by eapply load_bundle_keys.
Qed.

(** C2, as the code has it.  The two components are added by numpy.  Their
    shapes clash when on some axis, counted from the last, the extents
    differ and neither is 1: then the speech image, and with it the call,
    fails with numpy's [ValueError].  Otherwise the shapes broadcast, also
    when they differ: the image has the common shape (per axis the extent
    that is not 1, the longer shape's leading axes kept), and for numeric
    components each of its cells is the sum of the cell of
    [speech_reverberation_early] and the cell of
    [speech_reverberation_tail] read at the same index, with 0 on the axes
    where that component has extent 1. *)
Theorem components_are_added_by_broadcasting :
  forall self example h record path data sh1 d1 sh2 d2,
    speech_image self = true ->
    h !! example = Some record ->
    getitem Example (VDict record) "audio_path" = Ok path ->
    load_components self record path = Ok data ->
    dict_get "speech_reverberation_early" data = Some (VArr sh1 d1) ->
    dict_get "speech_reverberation_tail" data = Some (VArr sh2 d2) ->
    let clash :=
      exists i a b,
        rev sh1 !! i = Some a /\ rev sh2 !! i = Some b /\
        a <> b /\ a <> 1 /\ b <> 1 in
    let e := ValueError "operands could not be broadcast together" NoCause in
    (clash ->
     py_add (VArr sh1 d1) (VArr sh2 d2) = Err e /\
     speech_image_block self data = Err e /\
     __call__ self example h = Err e) /\
    (~ clash ->
     exists sh,
       broadcast_shapes sh1 sh2 = Some sh /\
       (forall i,
          rev sh !! i = match rev sh1 !! i, rev sh2 !! i with
                        | Some a, Some b => Some (if Nat.eqb a 1 then b else a)
                        | Some a, None => Some a
                        | None, Some b => Some b
                        | None, None => None
                        end) /\
       forall xs ys,
         d1 = VNum <$> xs -> d2 = VNum <$> ys ->
         length xs = size sh1 -> length ys = size sh2 ->
         exists cells,
           py_add (VArr sh1 d1) (VArr sh2 d2) = Ok (VArr sh cells) /\
           speech_image_block self data
             = Ok (dict_set "speech_image" (VArr sh cells) data) /\
           length cells = size sh /\
           forall k, k < size sh ->
             cells !! k
             = Some (VNum ((xs !!! ravel sh1 (bidx sh1 (unravel sh k)))
                           + (ys !!! ravel sh2 (bidx sh2 (unravel sh k))))%float)).
Proof.
  intros self example h record path data sh1 d1 sh2 d2
    Himage Hrecord Hpath Hload He Ht clash e.
  split.
  - intros (i & a & b & Ha & Hb & Hab & Ha1 & Hb1).
    by apply (unbroadcastable_components_fail
                self example h record path data sh1 d1 sh2 d2 i a b).
  - intros Hfit.
    destruct (broadcast_shapes sh1 sh2) as [sh|] eqn:Hsh;
      [| exfalso; by apply Hfit, broadcast_shapes_none].
    exists sh. split; [reflexivity |]. split.
    + intros i. unfold broadcast_shapes in Hsh.
      destruct (bshape_rev (rev sh1) (rev sh2)) as [r|] eqn:Hr; [| discriminate].
      injection Hsh as <-. rewrite rev_involutive.
      by apply bshape_rev_lookup.
    + intros xs ys -> -> Hx Hy. eexists.
      assert (py_add (VArr sh1 (VNum <$> xs)) (VArr sh2 (VNum <$> ys)) = Ok _)
        as Hsum by (rewrite py_add_arrays; by apply np_add_broadcast).
      split; [exact Hsum |]. split; [| split].
      * unfold speech_image_block. rewrite Himage. cbn [getitem].
        rewrite He, Ht. cbn [bind]. by rewrite Hsum.
      * by rewrite length_fmap, length_seq.
      * intros k Hk. by rewrite list_lookup_fmap, lookup_seq_lt.
Qed.

(** C3. Construction with [speech_image] requested leaves both
    reverberation-component flags enabled, whatever was passed for them;
    the other flags are as passed. *)
Theorem speech_image_forces_components :
  forall o ss sy early tail n r,
    let self := construct {| observation := o; speech_source := ss;
                             sync_speech_source := sy;
                             speech_reverberation_early := early;
                             speech_reverberation_tail := tail;
                             speech_image := true;
                             noise_image := n; rir := r |} in
    speech_reverberation_early self = true /\
    speech_reverberation_tail self = true /\
    speech_image self = true /\
    observation self = o /\ speech_source self = ss /\
    sync_speech_source self = sy /\ noise_image self = n /\ rir self = r.
Proof. intros. subst self. unfold construct, __post_init__. simpl. tauto. Qed.

(** C4, as the code has it.  With both reverberation components and the
    speech image requested,
    a call that returns has stored, next to the two loaded components, their
    sum as [speech_image]; for numeric components of one shape that sum is
    cell by cell, and [speech_image[s]] is
    [speech_reverberation_early[s] + speech_reverberation_tail[s]] for every
    speaker [s]. *)
Theorem speech_image_is_early_plus_tail :
  forall self example h example' h',
    speech_reverberation_early self = true ->
    speech_reverberation_tail self = true ->
    speech_image self = true ->
    __call__ self example h = Ok (example', h') ->
    exists record path early_ref tail_ref early tail image data,
      h !! example = Some record /\
      getitem Example (VDict record) "audio_path" = Ok path /\
      getitem AudioPath path "speech_reverberation_early" = Ok early_ref /\
      _rec_audio_read early_ref = Ok early /\
      getitem AudioPath path "speech_reverberation_tail" = Ok tail_ref /\
      _rec_audio_read tail_ref = Ok tail /\
      h' !! example' = Some (dict_set "audio_data" (VDict data) record) /\
      dict_get "speech_reverberation_early" data = Some early /\
      dict_get "speech_reverberation_tail" data = Some tail /\
      dict_get "speech_image" data = Some image /\
      py_add early tail = Ok image /\
      forall sh xs ys,
        early = VArr sh (VNum <$> xs) -> tail = VArr sh (VNum <$> ys) ->
        length xs = size sh -> length ys = size sh ->
        image = VArr sh (VNum <$> zip_with PrimFloat.add xs ys) /\
        forall s early_s tail_s,
          np_index early s = Some early_s -> np_index tail s = Some tail_s ->
          exists image_s,
            np_index image s = Some image_s /\
            py_add early_s tail_s = Ok image_s.
Proof.
  intros self example h example' h' Hearly Htail Himage Hcall.
  apply call_ok in Hcall as (record & data & Hrecord & Hbundle & -> & ->).
  destruct (load_bundle_ok _ _ _ Hbundle)
    as (path & d4 & d5 & d6 & Hpath & H4 & H5 & H6 & H7).
  destruct (load_components_early _ _ _ _ Hearly H4) as (early_ref & early & ? & ? & He).
  destruct (load_components_tail _ _ _ _ Htail H4) as (tail_ref & tail & ? & ? & Ht).
  assert (exists image, py_add early tail = Ok image /\
                        dict_get "speech_image" d5 = Some image)
    as (image & Hsum & Hi).
  { unfold speech_image_block in H5. rewrite Himage in H5. cbn [getitem] in H5.
    rewrite He, Ht in H5. simpl in H5.
    apply bind_ok in H5 as (image & Hsum & [= <-]).
    exists image. by rewrite dict_get_set_eq. }
  exists record, path, early_ref, tail_ref, early, tail, image, data.
  repeat (split; [first [assumption | by rewrite lookup_insert_eq] |]).
  split; [| split; [| split; [| split; [assumption |]]]].
  - rewrite (load_bundle_tail_frame _ _ _ _ _ _ Hpath H4 Hbundle) by discriminate.
    assumption.
  - rewrite (load_bundle_tail_frame _ _ _ _ _ _ Hpath H4 Hbundle) by discriminate.
    assumption.
  - rewrite (cond_read_frame _ _ _ _ _ _ H7) by discriminate.
    rewrite (cond_read_frame _ _ _ _ _ _ H6) by discriminate.
    assumption.
  - intros sh xs ys -> -> Hx Hy.
    rewrite py_add_arrays, np_add_same_shape in Hsum by assumption.
    injection Hsum as <-. split; [reflexivity |].
    intros s early_s tail_s Hes Hts. by eapply py_add_speakerwise.
Qed.

(** C5.  With [speech_source] and [sync_speech_source] both set, a call
    that returns has passed the loaded sources, the record's [offset] and
    its [num_samples.observation] to the synchronizer and stored the result
    as [speech_source]: an array of shape (number of speakers,
    [num_samples.observation]), the speakers being the entries of [offset],
    as many as there are sources. *)
Theorem synced_speech_source_shape :
  forall self example h example' h',
    speech_source self = true ->
    sync_speech_source self = true ->
    __call__ self example h = Ok (example', h') ->
    exists record path file loaded offset num_samples T synced data,
      h !! example = Some record /\
      getitem Example (VDict record) "audio_path" = Ok path /\
      getitem AudioPath path "speech_source" = Ok file /\
      _rec_audio_read file = Ok loaded /\
      getitem Example (VDict record) "offset" = Ok offset /\
      getitem Example (VDict record) "num_samples" = Ok num_samples /\
      getitem NumSamples num_samples "observation" = Ok T /\
      synchronize_speech_source loaded offset T = Ok synced /\
      h' !! example' = Some (dict_set "audio_data" (VDict data) record) /\
      dict_get "speech_source" data = Some synced /\
      exists sources offsets n cells,
        as_sources loaded = Some sources /\
        as_offsets offset = Some offsets /\
        T = VInt (Z.of_nat n) /\
        length sources = length offsets /\
        synced = VArr [length offsets; n] cells /\
        length cells = length offsets * n.
Proof.
  intros self example h example' h' Hsource Hsync Hcall.
  apply call_ok in Hcall as (record & data & Hrecord & Hbundle & -> & ->).
  destruct (load_bundle_ok _ _ _ Hbundle)
    as (path & d4 & d5 & d6 & Hpath & H4 & H5 & H6 & H7).
  pose proof H4 as Hcomponents. unfold load_components in H4.
  apply bind_ok in H4 as (d1 & H1 & H4).
  apply bind_ok in H4 as (d2 & H2 & H4).
  apply bind_ok in H4 as (d3 & H3 & H4).
  destruct (speech_source_block_synced _ _ _ _ _ Hsource Hsync H2)
    as (file & loaded & offset & num_samples & T & synced
        & Hfile & Hloaded & Hoffset & Hnum & HT & Hsynced & Hget).
  exists record, path, file, loaded, offset, num_samples, T, synced, data.
  repeat (split; [first [assumption | by rewrite lookup_insert_eq] |]).
  split.
  - rewrite (load_bundle_tail_frame _ _ _ _ _ _ Hpath Hcomponents Hbundle)
      by discriminate.
    rewrite (cond_read_frame _ _ _ _ _ _ H4) by discriminate.
    rewrite (cond_read_frame _ _ _ _ _ _ H3) by discriminate.
    assumption.
  - destruct (synchronize_speech_source_ok _ _ _ _ Hsynced)
      as (sources & offsets & n & Hs & Ho & -> & Hlen & -> & Hcells).
    exists sources, offsets, n. eexists.
    repeat (split; [assumption || reflexivity |]).
    rewrite Hlen. split; [reflexivity |].
    by rewrite length_fmap, Hcells, Hlen.
Qed.

(** C6.  Modelled from the spec: the synchronizer of section 4.2.  With as
    many offsets as sources it returns one row per speaker, without error;
    the row of a source [x] of length [L] with offset [o] has the target
    length, carries [x[lo:hi]] at the positions [[o+lo, o+hi)] for
    [lo = max(0, -o)] and [hi = min(L, T - o)], is zero elsewhere, and is
    all zero when [hi <= lo]. *)
Theorem synchronizer_places_sources :
  forall sources offsets (T : nat),
    length sources = length offsets ->
    exists rows,
      synchronize sources offsets T = Ok rows /\
      length rows = length sources /\
      forall s x o,
        sources !! s = Some x -> offsets !! s = Some o ->
        let lo := Z.max 0 (- o) in
        let hi := Z.min (Z.of_nat (length x)) (Z.of_nat T - o) in
        exists row,
          rows !! s = Some row /\
          length row = T /\
          (forall i, (lo <= i < hi)%Z ->
             row !! Z.to_nat (o + i) = x !! Z.to_nat i /\
             is_Some (x !! Z.to_nat i)) /\
          (forall p, p < T -> ~ (o + lo <= Z.of_nat p < o + hi)%Z ->
             row !! p = Some 0%float) /\
          ((hi <= lo)%Z -> row = replicate T 0%float).
Proof.
  intros sources offsets T Hlen. unfold synchronize.
  rewrite decide_True by assumption. eexists. split; [reflexivity |].
  split; [rewrite length_zip_with; lia |].
  intros s x o Hx Ho. cbv zeta.
  set (lo := Z.max 0 (- o)).
  set (hi := Z.min (Z.of_nat (length x)) (Z.of_nat T - o)).
  exists (place_row x o T).
  split; [by rewrite lookup_zip_with, Hx; simpl; rewrite Ho |].
  split; [apply length_place_row |].
  split; [| split].
  - intros i Hi.
    assert (Z.to_nat i < length x) as Hix by lia.
    rewrite lookup_place_row by lia. fold lo hi.
    rewrite decide_True by lia.
    replace (Z.of_nat (Z.to_nat (o + i)) - o)%Z with i by lia.
    rewrite (list_lookup_lookup_total_lt x (Z.to_nat i)) by assumption.
    split; [reflexivity | eauto].
  - intros p Hp Hout. rewrite lookup_place_row by assumption. fold lo hi.
    by rewrite decide_False.
  - intros Hempty. unfold place_row. cbv zeta. fold lo hi.
    destruct (Z.leb_spec hi lo); [reflexivity | lia].
Qed.

(** C7, as the code has it.  The loader keeps the structure of what it is
    given.  A file is returned as the transpose of what [soundfile.read]
    delivers, the axes reversed: [(channels, samples)] for a file delivered
    as [(samples, channels)], cell [(j, i)] being the file's [(i, j)], and
    the unchanged one-axis array for a mono file.  A sequence is returned
    as [np.array] of its items, each loaded in order; items that load to
    arrays of one shape are stacked along a new leading axis of extent
    [len(ref)].  A mapping whose values load is returned as a mapping with
    the same keys in the same order, each value loaded; and through any
    nesting the result follows the input, node by node. *)
Theorem loader_preserves_structure :
  (forall file sh samples,
     is_leaf file = true ->
     soundfile_read file = Ok (sh, samples) ->
     exists cells,
       _rec_audio_read file = Ok (VArr (rev sh) cells) /\
       length cells = size sh /\
       (forall s c,
          sh = [s; c] -> length samples = s * c ->
          forall i j, i < s -> j < c ->
            cells !! (j * s + i) = Some (VNum (samples !!! (i * c + j)))) /\
       (forall n, sh = [n] -> length samples = n -> cells = VNum <$> samples)) /\
  (forall k items v,
     _rec_audio_read (VSeq k items) = Ok v <->
     exists loaded,
       Forall2 (fun f a => _rec_audio_read f = Ok a) items loaded /\
       np_array loaded = Ok v) /\
  (forall k items sh arrays,
     Forall2 (fun f d => _rec_audio_read f = Ok (VArr sh d)) items arrays ->
     exists sh',
       _rec_audio_read (VSeq k items)
         = Ok (VArr (length items :: sh') (concat arrays)) /\
       (items <> [] -> sh' = sh)) /\
  (forall entries loaded,
     Forall2 (fun kv kv' => kv.1 = kv'.1 /\ _rec_audio_read kv.2 = Ok kv'.2)
             entries loaded ->
     _rec_audio_read (VDict entries) = Ok (VDict loaded) /\
     dict_keys loaded = dict_keys entries) /\
  (forall entries v,
     _rec_audio_read (VDict entries) = Ok v ->
     exists loaded,
       v = VDict loaded /\
       dict_keys loaded = dict_keys entries /\
       Forall2 (fun kv kv' => kv.1 = kv'.1 /\ _rec_audio_read kv.2 = Ok kv'.2)
               entries loaded) /\
  (forall file v, _rec_audio_read file = Ok v -> loaded_as file v).
Proof.
  split; [| split; [| split; [| split; [| split]]]].
  - intros file sh samples Hleaf Hread.
    rewrite rec_audio_read_leaf, Hread by assumption. cbn [bind].
    destruct (transpose_shape sh (VNum <$> samples)) as (cells & Heq & Hcells).
    exists cells. split; [by rewrite Heq |]. split; [assumption |]. split.
    + intros s c -> Hlen i j Hi Hj.
      destruct (transpose_2d s c (VNum <$> samples) i j Hi Hj)
        as (cells' & Heq' & _ & Hget).
      rewrite Heq in Heq'. injection Heq' as <-. rewrite Hget.
      rewrite (list_lookup_total_fmap VNum samples) by nia. reflexivity.
    + intros n -> Hlen.
      rewrite transpose_1d in Heq by (by rewrite length_fmap).
      by injection Heq.
  - intros k items v. rewrite rec_audio_read_seq. split.
    + intros (loaded & Hl & Hv)%bind_ok. exists loaded.
      split; [by apply mapR_ok | assumption].
    + intros (loaded & Hl & Hv). apply mapR_ok in Hl. by rewrite Hl.
  - intros k items sh arrays Hall.
    assert (mapR _rec_audio_read items = Ok (VArr sh <$> arrays)) as Hl.
    { apply mapR_ok. by apply Forall2_fmap_r. }
    rewrite rec_audio_read_seq, Hl. cbn [bind].
    pose proof (Forall2_length _ _ _ Hall) as Hlen.
    destruct arrays as [|d arrays].
    + destruct items; [| discriminate]. exists []. split; [reflexivity | done].
    + exists sh. rewrite np_array_stack by discriminate.
      rewrite Hlen. split; [reflexivity | done].
  - intros entries loaded Hall. split.
    + apply rec_audio_read_dict_ok. eauto.
    + by eapply (Forall2_same_keys _ _ (fun f a => _rec_audio_read f = Ok a)).
  - intros entries v (loaded & -> & Hall)%rec_audio_read_dict_ok.
    exists loaded. split; [reflexivity |]. split; [| assumption].
    by eapply (Forall2_same_keys _ _ (fun f a => _rec_audio_read f = Ok a)).
  - apply rec_audio_read_loaded_as.
Qed.


(** C10. For a reader as construction leaves it, with [speech_image] set:
    once lines 149 - 169 have run, both reverberation components are in the
    bundle, so the two lookups of lines 173 - 174 succeed and the block is
    the sum of what they return. *)
Theorem components_loaded_before_image :
  forall args example path data,
    let self := construct args in
    speech_image self = true ->
    load_components self example path = Ok data ->
    exists early tail,
      getitem Bundle (VDict data) "speech_reverberation_early" = Ok early /\
      getitem Bundle (VDict data) "speech_reverberation_tail" = Ok tail /\
      speech_image_block self data =
        (let* image := py_add early tail in
         Ok (dict_set "speech_image" image data)).
Proof.
  intros args example path data self Himage Hload. subst self.
  unfold construct in *. rewrite post_init_speech_image in Himage.
  destruct (post_init_forces args Himage) as (Hearly & Htail & Himage').
  destruct (load_components_early _ _ _ _ Hearly Hload) as (? & early & _ & _ & He).
  destruct (load_components_tail _ _ _ _ Htail Hload) as (? & tail & _ & _ & Ht).
  exists early, tail. unfold speech_image_block. rewrite Himage'.
  cbn [getitem]. rewrite He, Ht. auto.
Qed.

(** * Further properties *)

(** ** The configuration *)

(** X1.  [__post_init__] only ever switches the two reverberation flags
    on, and only when [speech_image] is set: each becomes the disjunction
    of its old value with [speech_image], the six other flags are kept, and
    a second run changes nothing. *)
Theorem post_init_normalises :
  forall self,
    speech_reverberation_early (__post_init__ self)
      = speech_reverberation_early self || speech_image self /\
    speech_reverberation_tail (__post_init__ self)
      = speech_reverberation_tail self || speech_image self /\
    observation (__post_init__ self) = observation self /\
    speech_source (__post_init__ self) = speech_source self /\
    sync_speech_source (__post_init__ self) = sync_speech_source self /\
    speech_image (__post_init__ self) = speech_image self /\
    noise_image (__post_init__ self) = noise_image self /\
    rir (__post_init__ self) = rir self /\
    __post_init__ (__post_init__ self) = __post_init__ self.
Proof.
  intros [o ss sy early tail [] n r]; unfold __post_init__; simpl;
    rewrite ?orb_true_r, ?orb_false_r; repeat split.
Qed.

(** ** What the bundle depends on *)

Lemma read_into_ext path1 path2 key data :
  getitem AudioPath path1 key = getitem AudioPath path2 key ->
  read_into path1 key data = read_into path2 key data.
Proof. unfold read_into. by intros ->. Qed.

Ltac requested_key := apply (bool_decide_unpack _); vm_compute; exact I.

(** Two records whose requested streams are listed alike, and whose
    [offset] and [num_samples] agree when the sources are synchronized,
    give the same bundle. *)
Lemma load_bundle_ext self record1 record2 path1 path2 :
  getitem Example (VDict record1) "audio_path" = Ok path1 ->
  getitem Example (VDict record2) "audio_path" = Ok path2 ->
  (forall key, key ∈ requested_paths self ->
     getitem AudioPath path1 key = getitem AudioPath path2 key) ->
  (speech_source self = true -> sync_speech_source self = true ->
     getitem Example (VDict record1) "offset"
       = getitem Example (VDict record2) "offset" /\
     getitem Example (VDict record1) "num_samples"
       = getitem Example (VDict record2) "num_samples") ->
  load_bundle self record1 = load_bundle self record2.
Proof.
  intros Hpath1 Hpath2 Hkeys Hsync.
  unfold load_bundle. rewrite Hpath1, Hpath2. cbn [bind].
  unfold load_components, speech_source_block, read_into.
  destruct self as [o ss sy early tail image noise r].
  cbn [observation speech_source sync_speech_source speech_reverberation_early
       speech_reverberation_tail speech_image noise_image rir] in *.
  unfold requested_paths in Hkeys.
  cbn [observation speech_source sync_speech_source speech_reverberation_early
       speech_reverberation_tail speech_image noise_image rir] in Hkeys.
  destruct o, ss, sy, early, tail, noise, r;
    try (destruct Hsync as [-> ->]; [reflexivity | reflexivity |]);
    repeat match goal with
           | |- context [getitem AudioPath path1 ?k] =>
               rewrite (Hkeys k) by requested_key
           end;
    reflexivity.
Qed.

Lemma dict_set_set k v d : dict_set k v (dict_set k v d) = dict_set k v d.
Proof.
  induction d as [|[k' v'] d IH]; simpl.
  - by rewrite String.eqb_refl.
  - destruct (String.eqb k k') eqn:E; simpl; rewrite E; [reflexivity |].
    by rewrite IH.
Qed.

Lemma getitem_set_ne c k k' v d :
  k <> k' ->
  getitem c (VDict (dict_set k v d)) k' = getitem c (VDict d) k'.
Proof. intros Hne. cbn [getitem]. by rewrite dict_get_set_ne. Qed.

(** X4.  The bundle depends on the record only through the streams that
    are requested, and through [offset] and [num_samples] only when the
    sources are synchronized: two records that agree there give the same
    bundle, or fail with the same exception, whatever else they hold and
    whatever they list for the streams that are not requested. *)
Theorem bundle_depends_on_requested_streams_only :
  forall self record1 record2 path1 path2,
    getitem Example (VDict record1) "audio_path" = Ok path1 ->
    getitem Example (VDict record2) "audio_path" = Ok path2 ->
    (forall key, key ∈ requested_paths self ->
       getitem AudioPath path1 key = getitem AudioPath path2 key) ->
    (speech_source self = true -> sync_speech_source self = true ->
       getitem Example (VDict record1) "offset"
         = getitem Example (VDict record2) "offset" /\
       getitem Example (VDict record1) "num_samples"
         = getitem Example (VDict record2) "num_samples") ->
    load_bundle self record1 = load_bundle self record2.
Proof. exact load_bundle_ext. Qed.

(** X2.  Applying the reader again to the record it has just filled gives
    the same store: the bundle is loaded from the same fields and
    overwrites itself. *)
Theorem call_twice_is_call_once :
  forall self example h example' h',
    __call__ self example h = Ok (example', h') ->
    __call__ self example' h' = Ok (example', h').
Proof.
  intros self example h example' h' Hcall.
  apply call_ok in Hcall as (record & data & Hrecord & Hbundle & -> & ->).
  destruct (load_bundle_ok _ _ _ Hbundle) as (path & _ & _ & _ & Hpath & _).
  apply call_ok.
  exists (dict_set "audio_data" (VDict data) record), data.
  split; [by rewrite lookup_insert_eq |].
  split.
  - rewrite <- Hbundle. apply load_bundle_ext with path path.
    + by rewrite getitem_set_ne.
    + assumption.
    + reflexivity.
    + intros _ _. by rewrite !getitem_set_ne.
  - split; [reflexivity |]. by rewrite dict_set_set, insert_insert_eq.
Qed.

(** X3.  Calls on two different records do not interfere: run in either
    order, possibly by different readers, they succeed alike and leave the
    same store. *)
Theorem calls_on_distinct_records_commute :
  forall self1 self2 example1 example2 h h1 h12,
    example1 <> example2 ->
    __call__ self1 example1 h = Ok (example1, h1) ->
    __call__ self2 example2 h1 = Ok (example2, h12) ->
    exists h2,
      __call__ self2 example2 h = Ok (example2, h2) /\
      __call__ self1 example1 h2 = Ok (example1, h12).
Proof.
  intros self1 self2 example1 example2 h h1 h12 Hne H1 H2.
  apply call_ok in H1 as (record1 & data1 & Hrecord1 & Hbundle1 & _ & ->).
  apply call_ok in H2 as (record2 & data2 & Hrecord2 & Hbundle2 & _ & ->).
  rewrite lookup_insert_ne in Hrecord2 by assumption.
  exists (<[example2 := dict_set "audio_data" (VDict data2) record2]> h).
  split; apply call_ok.
  - exists record2, data2. auto.
  - exists record1, data1. rewrite lookup_insert_ne by congruence.
    repeat (split; [assumption || reflexivity |]).
    apply insert_insert_ne. congruence.
Qed.

(** X5.  A record without ['audio_path'] is refused with the [KeyError] of
    line 150, whatever the reader asks for, even nothing. *)
Theorem call_needs_audio_path :
  forall self example h record,
    h !! example = Some record ->
    dict_get "audio_path" record = None ->
    __call__ self example h = Err (KeyError Example "audio_path").
Proof.
  intros self example h record Hrecord Hmissing.
  unfold __call__, load_bundle. rewrite Hrecord. cbn [getitem].
  by rewrite Hmissing.
Qed.
(** ** What the bundle holds *)

Lemma speech_source_block_unsynced self example path data data' :
  speech_source self = true -> sync_speech_source self = false ->
  speech_source_block self example path data = Ok data' ->
  exists file loaded,
    getitem AudioPath path "speech_source" = Ok file /\
    _rec_audio_read file = Ok loaded /\
    dict_get "speech_source" data' = Some loaded.
Proof.
  unfold speech_source_block. intros -> -> H.
  apply bind_ok in H as (d1 & H & [= <-]).
  by apply cond_read_sets in H.
Qed.

Lemma speech_source_block_loaded self example path data data' :
  speech_source self = true ->
  speech_source_block self example path data = Ok data' ->
  exists file loaded,
    getitem AudioPath path "speech_source" = Ok file /\
    _rec_audio_read file = Ok loaded.
Proof.
  intros Hflag H. destruct (sync_speech_source self) eqn:Hsync.
  - destruct (speech_source_block_synced _ _ _ _ _ Hflag Hsync H)
      as (file & loaded & _ & _ & _ & _ & Hfile & Hloaded & _).
    eauto.
  - destruct (speech_source_block_unsynced _ _ _ _ _ Hflag Hsync H)
      as (file & loaded & Hfile & Hloaded & _).
    eauto.
Qed.

(** X6.  A call that returns has found every requested stream listed in
    ['audio_path'] and loaded it, and the bundle holds under the stream's
    name exactly what the loader returned, the synchronized
    [speech_source] apart. *)
Theorem bundle_holds_loaded_streams :
  forall self example h example' h',
    __call__ self example h = Ok (example', h') ->
    exists record path data,
      h !! example = Some record /\
      getitem Example (VDict record) "audio_path" = Ok path /\
      h' !! example' = Some (dict_set "audio_data" (VDict data) record) /\
      forall key,
        key ∈ requested_paths self ->
        exists file loaded,
          getitem AudioPath path key = Ok file /\
          _rec_audio_read file = Ok loaded /\
          ((key = "speech_source" /\ sync_speech_source self = true) \/
           dict_get key data = Some loaded).
Proof.
  intros self example h example' h' Hcall.
  apply call_ok in Hcall as (record & data & Hrecord & Hbundle & -> & ->).
  destruct (load_bundle_ok _ _ _ Hbundle)
    as (path & d4 & d5 & d6 & Hpath & H4 & H5 & H6 & H7).
  exists record, path, data.
  split; [assumption |]. split; [assumption |].
  split; [by rewrite lookup_insert_eq |].
  pose proof H4 as Hcomponents. unfold load_components in H4.
  apply bind_ok in H4 as (d1 & H1 & H4).
  apply bind_ok in H4 as (d2 & H2 & H4).
  apply bind_ok in H4 as (d3 & H3 & H4).
  intros key Hkey. unfold requested_paths in Hkey.
  repeat (apply elem_of_app in Hkey as [Hkey | Hkey]).
  - destruct (observation self); [| by apply not_elem_of_nil in Hkey].
    apply list_elem_of_singleton in Hkey as ->.
    apply cond_read_sets in H1 as (file & loaded & ? & ? & Hget).
    exists file, loaded. split; [assumption |]. split; [assumption |]. right.
    rewrite (load_bundle_tail_frame _ _ _ _ _ _ Hpath Hcomponents Hbundle)
      by discriminate.
    rewrite (cond_read_frame _ _ _ _ _ _ H4) by discriminate.
    rewrite (cond_read_frame _ _ _ _ _ _ H3) by discriminate.
    by rewrite (speech_source_block_frame _ _ _ _ _ _ H2) by discriminate.
  - destruct (speech_source self) eqn:Hflag; [| by apply not_elem_of_nil in Hkey].
    apply list_elem_of_singleton in Hkey as ->.
    destruct (sync_speech_source self) eqn:Hsync.
    + destruct (speech_source_block_loaded _ _ _ _ _ Hflag H2)
        as (file & loaded & ? & ?).
      exists file, loaded. auto.
    + destruct (speech_source_block_unsynced _ _ _ _ _ Hflag Hsync H2)
        as (file & loaded & ? & ? & Hget).
      exists file, loaded. split; [assumption |]. split; [assumption |]. right.
      rewrite (load_bundle_tail_frame _ _ _ _ _ _ Hpath Hcomponents Hbundle)
        by discriminate.
      rewrite (cond_read_frame _ _ _ _ _ _ H4) by discriminate.
      by rewrite (cond_read_frame _ _ _ _ _ _ H3) by discriminate.
  - destruct (speech_reverberation_early self) eqn:Hflag;
      [| by apply not_elem_of_nil in Hkey].
    apply list_elem_of_singleton in Hkey as ->.
    destruct (load_components_early _ _ _ _ Hflag Hcomponents)
      as (file & loaded & ? & ? & Hget).
    exists file, loaded. split; [assumption |]. split; [assumption |]. right.
    by rewrite (load_bundle_tail_frame _ _ _ _ _ _ Hpath Hcomponents Hbundle)
      by discriminate.
  - destruct (speech_reverberation_tail self) eqn:Hflag;
      [| by apply not_elem_of_nil in Hkey].
    apply list_elem_of_singleton in Hkey as ->.
    destruct (load_components_tail _ _ _ _ Hflag Hcomponents)
      as (file & loaded & ? & ? & Hget).
    exists file, loaded. split; [assumption |]. split; [assumption |]. right.
    by rewrite (load_bundle_tail_frame _ _ _ _ _ _ Hpath Hcomponents Hbundle)
      by discriminate.
  - destruct (noise_image self); [| by apply not_elem_of_nil in Hkey].
    apply list_elem_of_singleton in Hkey as ->.
    apply cond_read_sets in H6 as (file & loaded & ? & ? & Hget).
    exists file, loaded. split; [assumption |]. split; [assumption |]. right.
    by rewrite (cond_read_frame _ _ _ _ _ _ H7) by discriminate.
  - destruct (rir self); [| by apply not_elem_of_nil in Hkey].
    apply list_elem_of_singleton in Hkey as ->.
    apply cond_read_sets in H7 as (file & loaded & ? & ? & Hget).
    exists file, loaded. auto.
Qed.

(** X11.  The returned record keeps its fields in their order; the field
    ['audio_data'] is appended at the end unless the record had one, which
    is then overwritten where it stands.  No field is duplicated. *)
Theorem call_keeps_field_order :
  forall self example h example' h',
    __call__ self example h = Ok (example', h') ->
    exists record record',
      h !! example = Some record /\
      h' !! example' = Some record' /\
      dict_keys record' =
        (if decide ("audio_data" ∈ dict_keys record)
         then dict_keys record
         else dict_keys record ++ ["audio_data"]) /\
      (NoDup (dict_keys record) -> NoDup (dict_keys record')).
Proof.
  intros self example h example' h' Hcall.
  apply call_ok in Hcall as (record & data & Hrecord & _ & -> & ->).
  exists record, (dict_set "audio_data" (VDict data) record).
  split; [assumption |]. split; [by rewrite lookup_insert_eq |].
  rewrite dict_keys_set. split; [reflexivity |].
  intros Hnodup. case_decide; [assumption |].
  apply NoDup_app. split; [assumption |]. split.
  - intros k Hk ->%list_elem_of_singleton. contradiction.
  - apply NoDup_singleton.
Qed.
(** ** Where the call fails *)

Lemma load_components_keys self example path data :
  load_components self example path = Ok data ->
  dict_keys data =
    (if observation self then ["observation"] else []) ++
    (if speech_source self then ["speech_source"] else []) ++
    (if speech_reverberation_early self
     then ["speech_reverberation_early"] else []) ++
    (if speech_reverberation_tail self
     then ["speech_reverberation_tail"] else []).
Proof.
  unfold load_components. intros H4.
  apply bind_ok in H4 as (d1 & H1 & H4).
  apply bind_ok in H4 as (d2 & H2 & H4).
  apply bind_ok in H4 as (d3 & H3 & H4).
  apply cond_read_keys in H1; [| apply not_elem_of_nil].
  apply speech_source_block_keys in H2; [| fresh_key]. rewrite H1 in H2.
  apply cond_read_keys in H3; [| fresh_key]. rewrite H2 in H3.
  apply cond_read_keys in H4; [| fresh_key]. rewrite H3 in H4.
  rewrite H4. simpl. by rewrite <- !app_assoc.
Qed.

Lemma dict_get_absent k d : k ∉ dict_keys d -> dict_get k d = None.
Proof.
  intros Hk. destruct (dict_get k d) eqn:E; [| reflexivity].
  exfalso. apply Hk, dict_get_keys. eauto.
Qed.

Lemma call_image_block_fails self example h record path data e :
  h !! example = Some record ->
  getitem Example (VDict record) "audio_path" = Ok path ->
  load_components self record path = Ok data ->
  speech_image_block self data = Err e ->
  __call__ self example h = Err e.
Proof.
  intros Hrecord Hpath Hload Hblock.
  unfold __call__, load_bundle. rewrite Hrecord, Hpath. cbn [bind].
  rewrite Hload. cbn [bind]. by rewrite Hblock.
Qed.

(** X9.  A reader whose component flags were switched off after
    construction while [speech_image] stayed on loads what is left and then
    fails at the sum: with the [KeyError] of line 173 when the early
    component is missing, of line 174 when only the tail is. *)
Theorem image_without_component_fails :
  forall self example h record path data,
    speech_image self = true ->
    h !! example = Some record ->
    getitem Example (VDict record) "audio_path" = Ok path ->
    load_components self record path = Ok data ->
    (speech_reverberation_early self = false ->
     __call__ self example h
     = Err (KeyError Bundle "speech_reverberation_early")) /\
    (speech_reverberation_early self = true ->
     speech_reverberation_tail self = false ->
     __call__ self example h
     = Err (KeyError Bundle "speech_reverberation_tail")).
Proof.
  intros self example h record path data Himage Hrecord Hpath Hload.
  pose proof (load_components_keys _ _ _ _ Hload) as Hkeys.
  split.
  - intros Hearly. apply (call_image_block_fails _ _ _ _ _ _ _ Hrecord Hpath Hload).
    unfold speech_image_block. rewrite Himage. cbn [getitem].
    rewrite dict_get_absent; [reflexivity |].
    rewrite Hkeys, Hearly. fresh_key.
  - intros Hearly Htail.
    apply (call_image_block_fails _ _ _ _ _ _ _ Hrecord Hpath Hload).
    destruct (load_components_early _ _ _ _ Hearly Hload) as (? & a & _ & _ & Ha).
    unfold speech_image_block. rewrite Himage. cbn [getitem].
    rewrite Ha. cbn [bind]. rewrite dict_get_absent; [reflexivity |].
    rewrite Hkeys, Htail. fresh_key.
Qed.

(** X10.  The loader accepts a mapping of files for any stream, the sum of
    lines 172 - 175 does not: when both reverberation components are listed
    as mappings they load to dicts, and the speech image fails with the
    [TypeError] of [dict + dict]. *)
Theorem mapping_components_do_not_add :
  forall self example h record path entries_early entries_tail data,
    speech_image self = true ->
    speech_reverberation_early self = true ->
    speech_reverberation_tail self = true ->
    h !! example = Some record ->
    getitem Example (VDict record) "audio_path" = Ok path ->
    getitem AudioPath path "speech_reverberation_early" = Ok (VDict entries_early) ->
    getitem AudioPath path "speech_reverberation_tail" = Ok (VDict entries_tail) ->
    load_components self record path = Ok data ->
    __call__ self example h = Err (TypeError "unsupported operand type(s) for +").
Proof.
  intros self example h record path entries_early entries_tail data
    Himage Hearly Htail Hrecord Hpath Hpe Hpt Hload.
  apply (call_image_block_fails _ _ _ _ _ _ _ Hrecord Hpath Hload).
  destruct (load_components_early _ _ _ _ Hearly Hload) as (fe & a & Hfe & Ha & Hga).
  destruct (load_components_tail _ _ _ _ Htail Hload) as (ft & b & Hft & Hb & Hgb).
  rewrite Hpe in Hfe. injection Hfe as <-.
  rewrite Hpt in Hft. injection Hft as <-.
  apply rec_audio_read_dict_ok in Ha as (la & -> & _).
  apply rec_audio_read_dict_ok in Hb as (lb & -> & _).
  unfold speech_image_block. rewrite Himage. cbn [getitem].
  rewrite Hga, Hgb. reflexivity.
Qed.

(** X13.  The streams are read in the order of the method body, and the
    first requested one decides: when it is not listed, or does not load,
    the call raises exactly that exception.  (The reader is as construction
    leaves it: [speech_image] implies the early component.) *)
Theorem first_requested_stream_decides :
  forall self example h record path key e,
    (speech_image self = true -> speech_reverberation_early self = true) ->
    head (requested_paths self) = Some key ->
    h !! example = Some record ->
    getitem Example (VDict record) "audio_path" = Ok path ->
    (let* file := getitem AudioPath path key in _rec_audio_read file) = Err e ->
    __call__ self example h = Err e.
Proof.
  intros self example h record path key e Hinv Hhead Hrecord Hpath Hfail.
  assert (forall data, read_into path key data = Err e) as Hread.
  { intros data. unfold read_into.
    destruct (getitem AudioPath path key) as [file|e0]; cbn [bind] in Hfail |- *.
    - by rewrite Hfail.
    - by injection Hfail as ->. }
  unfold __call__, load_bundle. rewrite Hrecord, Hpath. cbn [bind].
  unfold load_components, speech_source_block, speech_image_block,
    requested_paths in *.
  destruct self as [o ss sy early tail image noise r].
  cbn [observation speech_source sync_speech_source speech_reverberation_early
       speech_reverberation_tail speech_image noise_image rir] in *.
  destruct o, ss, early, tail, image, noise, r;
    try (specialize (Hinv eq_refl); discriminate Hinv);
    try discriminate Hhead;
    injection Hhead as <-; cbn [bind]; rewrite ?Hread; reflexivity.
Qed.
(** ** Mono files *)

Lemma fmap_concat_rows {A B} (f : A -> B) (rows : list (list A)) :
  concat (fmap (M := list) f <$> rows) = f <$> concat rows.
Proof.
  induction rows as [|row rows IH]; [reflexivity |].
  rewrite fmap_cons. simpl. by rewrite IH, fmap_app.
Qed.

(** X7.  A file that [soundfile.read] delivers on one axis (a mono file) is
    returned as it is, with no channel axis: [data.T] leaves it alone.  A
    non-empty sequence of [len(ref)] such files of [n] samples each is
    returned as one [(len(ref), n)] array whose rows are the files. *)
Theorem mono_files_have_no_channel_axis :
  (forall file n samples,
     is_leaf file = true ->
     soundfile_read file = Ok ([n], samples) ->
     length samples = n ->
     _rec_audio_read file = Ok (VArr [n] (VNum <$> samples))) /\
  (forall k items n rows,
     items <> [] ->
     Forall2 (fun file row =>
                is_leaf file = true /\
                soundfile_read file = Ok ([n], row) /\
                length row = n) items rows ->
     _rec_audio_read (VSeq k items)
     = Ok (VArr [length items; n] (VNum <$> concat rows))).
Proof.
  assert (forall file n samples,
            is_leaf file = true ->
            soundfile_read file = Ok ([n], samples) ->
            length samples = n ->
            _rec_audio_read file = Ok (VArr [n] (VNum <$> samples))) as Hmono.
  { intros file n samples Hleaf Hread Hlen.
    rewrite rec_audio_read_leaf, Hread by assumption. cbn [bind].
    by rewrite transpose_1d by (by rewrite length_fmap). }
  split; [exact Hmono |].
  intros k items n rows Hne Hall.
  assert (mapR _rec_audio_read items = Ok (VArr [n] <$> (fmap (M := list) VNum <$> rows))) as Hl.
  { apply mapR_ok. apply Forall2_fmap_r, Forall2_fmap_r.
    eapply Forall2_impl; [exact Hall |].
    intros file row (Hleaf & Hread & Hlen). by apply Hmono. }
  rewrite rec_audio_read_seq, Hl. cbn [bind].
  pose proof (Forall2_length _ _ _ Hall) as Hlen.
  rewrite np_array_stack.
  - by rewrite length_fmap, <- Hlen, fmap_concat_rows.
  - destruct rows; [destruct items; [done | discriminate] | discriminate].
Qed.
End Reader.

(** * SmsWsj *)

(** C8.  Constructing the accessor without a path while [SMS_WSJ_JSON] is
    not in the environment raises the [ValueError] of [default_json_path],
    chained to the [KeyError], after a single look at the environment and
    before the base class is initialised. *)
Theorem missing_catalog_location_fails_at_construction :
  forall (name : string) (environ : gmap string string) (database : Type)
         (JsonDatabase_init : string -> result database),
    environ !! "SMS_WSJ_JSON" = None ->
    SmsWsj.__init__ name environ database JsonDatabase_init None
    = (Err (ValueError (SmsWsj.instantiate_message name)
                       (FromKeyError Environ "SMS_WSJ_JSON")),
       [SmsWsj.GetEnv "SMS_WSJ_JSON"]).
Proof.
  intros name environ database JsonDatabase_init Hmissing.
  unfold SmsWsj.__init__, SmsWsj.default_json_path. by rewrite Hmissing.
Qed.

Lemma missing_catalog_location_witness :
  SmsWsj.__init__ "SmsWsj" ∅ unit (fun _ => Ok tt) None
  = (Err (ValueError (SmsWsj.instantiate_message "SmsWsj")
                     (FromKeyError Environ "SMS_WSJ_JSON")),
     [SmsWsj.GetEnv "SMS_WSJ_JSON"]).
Proof.
  apply (missing_catalog_location_fails_at_construction
           "SmsWsj" ∅ unit (fun _ => Ok tt)).
  reflexivity.
Defined.

(** * The reader in the sample world *)

Abbreviation sample_call :=
  (__call__ sample_read sample_np_array_object sample_object_add).
Abbreviation sample_load :=
  (_rec_audio_read sample_read sample_np_array_object).

(** Against C1 as the specification words it: the record behind the
    reference is overwritten, and who holds the reference sees
    ['audio_data'] appear. *)
Lemma call_mutates_the_record :
  let h : gmap nat (list (string * pyval)) := {[ 7 := [("audio_path", VDict [])] ]} in
  exists h',
    sample_call silent 7 h = Ok (7, h') /\
    h !! 7 = Some [("audio_path", VDict [])] /\
    h' !! 7 = Some [("audio_path", VDict []); ("audio_data", VDict [])] /\
    h' !! 7 <> h !! 7.
Proof.
  eexists. split; [vm_compute; reflexivity |].
  split; [reflexivity |]. split; [reflexivity |]. discriminate.
Qed.

Lemma call_stores_bundle_witness :
  exists h' data,
    sample_call defaults 7 {[ 7 := sample_record ]} = Ok (7, h') /\
    h' !! 7 = Some (dict_set "audio_data" (VDict data) sample_record) /\
    dict_keys data =
      ["observation"; "speech_source"; "speech_reverberation_early";
       "speech_reverberation_tail"; "speech_image"; "noise_image"].
Proof.
  destruct (sample_call defaults 7 {[ 7 := sample_record ]}) as [[l h']|e] eqn:E;
    [| vm_compute in E; discriminate E].
  destruct (call_stores_bundle_in_place
              sample_read sample_np_array_object sample_object_add
              defaults 7 {[ 7 := sample_record ]} l h' E)
    as (-> & record & data & Hrecord & _ & Hh' & _ & _ & _ & Hkeys).
  rewrite lookup_singleton_eq in Hrecord. injection Hrecord as <-.
  exists h', data. split; [reflexivity |]. split; [assumption |].
  rewrite Hkeys. reflexivity.
Defined.

(** Against C2 as the specification words it: early reverberation for two
    speakers, tail for one.  The shapes [(2, 2, 3)] and [(1, 2, 3)] differ,
    and the sum is the tail of the one speaker added to both. *)
Lemma differing_shapes_are_broadcast :
  exists early tail image h',
    sample_load (VSeq PyList [VStr "e0.wav"; VStr "e1.wav"])
      = Ok (VArr [2; 2; 3] early) /\
    sample_load (VSeq PyList [VStr "t0.wav"]) = Ok (VArr [1; 2; 3] tail) /\
    [2; 2; 3] <> [1; 2; 3] /\
    py_add sample_object_add (VArr [2; 2; 3] early) (VArr [1; 2; 3] tail)
      = Ok (VArr [2; 2; 3] image) /\
    image = VNum <$> [101; 303; 505; 202; 404; 606;
                      107; 309; 511; 208; 410; 612]%float /\
    sample_call defaults 7 {[ 7 := one_tail_record ]} = Ok (7, h') /\
    (exists data,
       h' !! 7 = Some (dict_set "audio_data" (VDict data) one_tail_record) /\
       dict_get "speech_image" data = Some (VArr [2; 2; 3] image)).
Proof.
  do 4 eexists.
  split; [vm_compute; reflexivity |].
  split; [vm_compute; reflexivity |].
  split; [discriminate |].
  split; [vm_compute; reflexivity |].
  split; [reflexivity |].
  split; [vm_compute; reflexivity |].
  eexists. split; vm_compute; reflexivity.
Qed.

Lemma unbroadcastable_components_witness :
  sample_call defaults 7 {[ 7 := long_tail_record ]}
  = Err (ValueError "operands could not be broadcast together" NoCause).
Proof.
  edestruct (unbroadcastable_components_fail
               sample_read sample_np_array_object sample_object_add
               defaults 7 {[ 7 := long_tail_record ]})
    with (i := 0) (a := 3) (b := 4) as (_ & _ & H); [..| exact H];
    try (vm_compute; reflexivity); lia.
Defined.

Lemma speech_image_witness :
  exists h' data,
    sample_call defaults 7 {[ 7 := sample_record ]} = Ok (7, h') /\
    h' !! 7 = Some (dict_set "audio_data" (VDict data) sample_record) /\
    dict_get "speech_image" data
    = Some (VArr [2; 2; 3]
              (VNum <$> [101; 303; 505; 202; 404; 606;
                         107; 309; 511; 208; 410; 612]%float)).
Proof.
  destruct (sample_call defaults 7 {[ 7 := sample_record ]}) as [[l h']|e] eqn:E;
    [| vm_compute in E; discriminate E].
  destruct (speech_image_is_early_plus_tail
              sample_read sample_np_array_object sample_object_add
              defaults 7 {[ 7 := sample_record ]} l h'
              eq_refl eq_refl eq_refl E)
    as (record & path & early_ref & tail_ref & early & tail & image & data
        & Hrecord & Hpath & Hearly_ref & Hearly & Htail_ref & Htail
        & Hh' & _ & _ & Himage & _ & Hcells).
  rewrite lookup_singleton_eq in Hrecord. injection Hrecord as <-.
  vm_compute in Hpath. injection Hpath as <-.
  vm_compute in Hearly_ref. injection Hearly_ref as <-.
  vm_compute in Htail_ref. injection Htail_ref as <-.
  vm_compute in Hearly. injection Hearly as <-.
  vm_compute in Htail. injection Htail as <-.
  destruct (Hcells [2; 2; 3]
              [1; 3; 5; 2; 4; 6; 7; 9; 11; 8; 10; 12]%float
              [100; 300; 500; 200; 400; 600; 100; 300; 500; 200; 400; 600]%float
              eq_refl eq_refl eq_refl eq_refl) as [-> _].
  apply call_ok in E as (? & ? & _ & _ & -> & _).
  exists h', data. split; [reflexivity |]. split; [assumption |].
  rewrite Himage. vm_compute. reflexivity.
Defined.

Lemma components_loaded_witness :
  exists data early tail,
    load_components sample_read sample_np_array_object (construct defaults)
      sample_record (sample_paths (VStr "obs.wav")
                       (VSeq PyList [VStr "t0.wav"; VStr "t0.wav"]))
    = Ok data /\
    getitem Bundle (VDict data) "speech_reverberation_early" = Ok early /\
    getitem Bundle (VDict data) "speech_reverberation_tail" = Ok tail.
Proof.
  eexists. 
  edestruct (components_loaded_before_image
               sample_read sample_np_array_object sample_object_add
               defaults sample_record
               (sample_paths (VStr "obs.wav")
                  (VSeq PyList [VStr "t0.wav"; VStr "t0.wav"])))
    as (early & tail & He & Ht & _);
    [reflexivity | vm_compute; reflexivity |].
  exists early, tail. split; [vm_compute; reflexivity |].
  split; assumption.
Defined.

Lemma synced_speech_source_witness :
  exists h' data,
    sample_call defaults 7 {[ 7 := sample_record ]} = Ok (7, h') /\
    h' !! 7 = Some (dict_set "audio_data" (VDict data) sample_record) /\
    dict_get "speech_source" data
    = Some (VArr [2; 3] (VNum <$> [10; 20; 30; 0; 40; 50]%float)).
Proof.
  destruct (sample_call defaults 7 {[ 7 := sample_record ]}) as [[l h']|e] eqn:E;
    [| vm_compute in E; discriminate E].
  destruct (synced_speech_source_shape
              sample_read sample_np_array_object sample_object_add
              defaults 7 {[ 7 := sample_record ]} l h' eq_refl eq_refl E)
    as (record & path & file & loaded & offset & num_samples & T & synced & data
        & Hrecord & Hpath & Hfile & Hloaded & Hoffset & Hnum & HT & Hsynced
        & Hh' & Hget & _).
  rewrite lookup_singleton_eq in Hrecord. injection Hrecord as <-.
  vm_compute in Hpath. injection Hpath as <-.
  vm_compute in Hfile. injection Hfile as <-.
  vm_compute in Hloaded. injection Hloaded as <-.
  vm_compute in Hoffset. injection Hoffset as <-.
  vm_compute in Hnum. injection Hnum as <-.
  vm_compute in HT. injection HT as <-.
  vm_compute in Hsynced. injection Hsynced as <-.
  apply call_ok in E as (? & ? & _ & _ & -> & _).
  exists h', data. split; [reflexivity |]. split; assumption.
Defined.

(** The examples of section 8: offset 3 into ten samples, offset -2 into
    three, and a source that starts where the window ends. *)
Lemma synchronizer_witness :
  exists rows,
    synchronize [[1; 2; 3; 4; 5]; [1; 2; 3; 4; 5]; [1; 2; 3; 4; 5]]%float
                [3; -2; 10]%Z 10 = Ok rows /\
    length rows = 3 /\
    rows = [ [0; 0; 0; 1; 2; 3; 4; 5; 0; 0];
             [3; 4; 5; 0; 0; 0; 0; 0; 0; 0];
             [0; 0; 0; 0; 0; 0; 0; 0; 0; 0] ]%float.
Proof.
  destruct (synchronizer_places_sources
              [[1; 2; 3; 4; 5]; [1; 2; 3; 4; 5]; [1; 2; 3; 4; 5]]%float
              [3; -2; 10]%Z 10 eq_refl) as (rows & Hrows & Hlen & _).
  exists rows. split; [assumption |]. split; [assumption |].
  vm_compute in Hrows. by injection Hrows as <-.
Defined.

Lemma loader_witness :
  sample_load (VStr "obs.wav")
    = Ok (VArr [2; 3] (VNum <$> [1; 3; 5; 2; 4; 6]%float)) /\
  sample_load (VStr "s0.wav") = Ok (VArr [3] (VNum <$> [10; 20; 30]%float)) /\
  sample_load (VSeq PyList [VStr "e0.wav"; VStr "e1.wav"])
    = Ok (VArr [2; 2; 3]
            (VNum <$> [1; 3; 5; 2; 4; 6; 7; 9; 11; 8; 10; 12]%float)) /\
  sample_load (VDict [("early", VStr "e0.wav"); ("tail", VStr "t0.wav")])
    = Ok (VDict [("early", VArr [2; 3] (VNum <$> [1; 3; 5; 2; 4; 6]%float));
                 ("tail", VArr [2; 3]
                            (VNum <$> [100; 300; 500; 200; 400; 600]%float))]).
Proof.
  destruct (loader_preserves_structure sample_read sample_np_array_object)
    as (Hfile & _ & Hseq & Hdict & _ & _).
  split; [| split; [| split]].
  - destruct (Hfile (VStr "obs.wav") [3; 2] [1; 2; 3; 4; 5; 6]%float
                eq_refl eq_refl) as (cells & Hcells & _ & _ & _).
    rewrite Hcells. vm_compute in Hcells. by injection Hcells as <-.
  - destruct (Hfile (VStr "s0.wav") [3] [10; 20; 30]%float eq_refl eq_refl)
      as (cells & Hcells & _ & _ & Hmono).
    rewrite Hcells. by rewrite (Hmono 3 eq_refl eq_refl).
  - destruct (Hseq PyList [VStr "e0.wav"; VStr "e1.wav"] [2; 3]
                [VNum <$> [1; 3; 5; 2; 4; 6]%float;
                 VNum <$> [7; 9; 11; 8; 10; 12]%float])
      as (sh' & -> & Hsh).
    { repeat constructor. }
    rewrite Hsh by discriminate. reflexivity.
  - refine (proj1 (Hdict [("early", VStr "e0.wav"); ("tail", VStr "t0.wav")]
                     [("early", VArr [2; 3] (VNum <$> [1; 3; 5; 2; 4; 6]%float));
                      ("tail", VArr [2; 3]
                                 (VNum <$> [100; 300; 500; 200; 400; 600]%float))]
                     _)).
    repeat constructor.
Defined.


(** * Further properties, outside the reader's parameters *)

Lemma mapR_ext_in {A B} (f g : A -> result B) (l : list A) :
  (forall a, a ∈ l -> f a = g a) -> mapR f l = mapR g l.
Proof.
  induction l as [|a l IH]; intros H; simpl; [reflexivity |].
  rewrite (H a) by left. rewrite IH; [reflexivity |].
  intros b Hb. apply H. by right.
Qed.

(** X8.  The loader touches the file system at the references of the
    structure and nowhere else: two file systems on which [soundfile.read]
    answers alike for those references give the same result, value or
    exception. *)
Theorem loader_reads_only_the_references :
  forall (read1 read2 : pyval -> result (list nat * list float))
         (np_array_object : list pyval -> result (list nat * list pyval))
         (file : pyval),
    (forall leaf, leaf ∈ leaves file -> read1 leaf = read2 leaf) ->
    _rec_audio_read read1 np_array_object file
    = _rec_audio_read read2 np_array_object file.
Proof.
  intros read1 read2 np_array_object.
  induction file as [| b | z | x | s | k items IH | entries IH | sh cells]
    using pyval_nested_ind; intros Hsame;
    try (simpl; rewrite Hsame by (by apply list_elem_of_singleton); reflexivity).
  - rewrite !rec_audio_read_seq. f_equal. apply mapR_ext_in.
    intros item Hitem. rewrite Forall_forall in IH. apply IH; [assumption |].
    intros leaf Hleaf. apply Hsame. simpl.
    apply list_elem_of_In, in_flat_map. exists item.
    split; by apply list_elem_of_In.
  - rewrite !rec_audio_read_dict. f_equal. apply mapR_ext_in.
    intros [key v] Hitem. rewrite Forall_forall in IH.
    specialize (IH (key, v) Hitem). simpl in IH |- *.
    rewrite IH; [reflexivity |].
    intros leaf Hleaf. apply Hsame. simpl.
    apply list_elem_of_In, in_flat_map. exists (key, v).
    split; by apply list_elem_of_In.
Qed.

(** X12.  How the accessor finds its catalogue.  A path given to the
    constructor goes to the base class as it is and the environment is not
    looked at; without one, the value of [SMS_WSJ_JSON] goes there after a
    single lookup; and construction without a path succeeds exactly when
    the variable is set and the base class accepts its value. *)
Theorem catalog_location_resolution :
  forall (name : string) (environ : gmap string string) (database : Type)
         (JsonDatabase_init : string -> result database),
    (forall path,
       SmsWsj.__init__ name environ database JsonDatabase_init (Some path)
       = (JsonDatabase_init path, [SmsWsj.BaseInit path])) /\
    (forall path,
       environ !! "SMS_WSJ_JSON" = Some path ->
       SmsWsj.__init__ name environ database JsonDatabase_init None
       = (JsonDatabase_init path,
          [SmsWsj.GetEnv "SMS_WSJ_JSON"; SmsWsj.BaseInit path])) /\
    (forall db,
       (SmsWsj.__init__ name environ database JsonDatabase_init None).1 = Ok db
       <-> exists path,
             environ !! "SMS_WSJ_JSON" = Some path /\
             JsonDatabase_init path = Ok db).
Proof.
  intros name environ database JsonDatabase_init.
  unfold SmsWsj.__init__, SmsWsj.default_json_path.
  split; [reflexivity |]. split.
  - by intros path ->.
  - intros db. destruct (environ !! "SMS_WSJ_JSON") as [path|]; simpl.
    + split; [eauto | by intros (? & [= <-] & ?)].
    + split; [discriminate | by intros (? & [=] & _)].
Qed.

(** ** In the sample world *)

Lemma bundle_dependence_witness :
  let self := {| observation := false; speech_source := true;
                 sync_speech_source := true;
                 speech_reverberation_early := true;
                 speech_reverberation_tail := true;
                 speech_image := true; noise_image := true; rir := false |} in
  load_bundle sample_read sample_np_array_object sample_object_add
    self sample_record
  = load_bundle sample_read sample_np_array_object sample_object_add
      self lost_observation_record.
Proof.
  intros self.
  apply (bundle_depends_on_requested_streams_only
           sample_read sample_np_array_object sample_object_add self
           sample_record lost_observation_record
           (sample_paths (VStr "obs.wav") (VSeq PyList [VStr "t0.wav"; VStr "t0.wav"]))
           (sample_paths (VStr "lost.wav") (VSeq PyList [VStr "t0.wav"; VStr "t0.wav"]))).
  - reflexivity.
  - reflexivity.
  - intros key Hkey. subst self. unfold requested_paths in Hkey. simpl in Hkey.
    repeat (apply elem_of_cons in Hkey as [-> | Hkey]; [reflexivity |]).
    by apply not_elem_of_nil in Hkey.
  - intros _ _. split; reflexivity.
Defined.

Lemma call_twice_witness :
  exists h',
    sample_call defaults 7 {[ 7 := sample_record ]} = Ok (7, h') /\
    sample_call defaults 7 h' = Ok (7, h').
Proof.
  destruct (sample_call defaults 7 {[ 7 := sample_record ]}) as [[l h']|e] eqn:E;
    [| vm_compute in E; discriminate E].
  pose proof (call_twice_is_call_once
                sample_read sample_np_array_object sample_object_add
                defaults 7 {[ 7 := sample_record ]} l h' E) as Hagain.
  apply call_ok in E as (? & ? & _ & _ & -> & _).
  exists h'. split; [reflexivity | exact Hagain].
Defined.

Lemma calls_commute_witness :
  let h : gmap nat (list (string * pyval)) :=
    {[ 7 := sample_record; 8 := one_tail_record ]} in
  exists h1 h2 h12,
    sample_call defaults 7 h = Ok (7, h1) /\
    sample_call silent 8 h1 = Ok (8, h12) /\
    sample_call silent 8 h = Ok (8, h2) /\
    sample_call defaults 7 h2 = Ok (7, h12).
Proof.
  intros h.
  destruct (sample_call defaults 7 h) as [[l1 h1]|e] eqn:E1;
    [| vm_compute in E1; discriminate E1].
  pose proof E1 as E1'. apply call_ok in E1' as (? & ? & _ & _ & -> & _).
  destruct (sample_call silent 8 h1) as [[l2 h12]|e] eqn:E2.
  - pose proof E2 as E2'. apply call_ok in E2' as (? & ? & _ & _ & -> & _).
    destruct (calls_on_distinct_records_commute
                sample_read sample_np_array_object sample_object_add
                defaults silent 7 8 h h1 h12 ltac:(discriminate) E1 E2)
      as (h2 & H2 & H12).
    exists h1, h2, h12. auto.
  - exfalso. apply call_ok in E1 as (r1 & d1 & _ & _ & _ & ->).
    unfold __call__ in E2. rewrite lookup_insert_ne in E2 by discriminate.
    vm_compute in E2. discriminate E2.
Defined.

Lemma call_needs_audio_path_witness :
  sample_call silent 7 {[ 7 := [("example_id", VStr "0_4k0c0301_4k6c030t_0")] ]}
  = Err (KeyError Example "audio_path").
Proof.
  apply (call_needs_audio_path
           sample_read sample_np_array_object sample_object_add silent 7 _
           [("example_id", VStr "0_4k0c0301_4k6c030t_0")]).
  - apply lookup_singleton_eq.
  - reflexivity.
Defined.

Lemma bundle_holds_loaded_streams_witness :
  exists h' data,
    sample_call defaults 7 {[ 7 := sample_record ]} = Ok (7, h') /\
    h' !! 7 = Some (dict_set "audio_data" (VDict data) sample_record) /\
    dict_get "noise_image" data
    = Some (VArr [2; 3] (VNum <$> [1; 3; 5; 2; 4; 6]%float)).
Proof.
  destruct (sample_call defaults 7 {[ 7 := sample_record ]}) as [[l h']|e] eqn:E;
    [| vm_compute in E; discriminate E].
  destruct (bundle_holds_loaded_streams
              sample_read sample_np_array_object sample_object_add
              defaults 7 {[ 7 := sample_record ]} l h' E)
    as (record & path & data & Hrecord & Hpath & Hh' & Hkeys).
  rewrite lookup_singleton_eq in Hrecord. injection Hrecord as <-.
  vm_compute in Hpath. injection Hpath as <-.
  destruct (Hkeys "noise_image") as (file & loaded & Hfile & Hloaded & Hget).
  { apply (bool_decide_unpack _). vm_compute. exact I. }
  vm_compute in Hfile. injection Hfile as <-.
  vm_compute in Hloaded. injection Hloaded as <-.
  destruct Hget as [[Hkey _] | Hget]; [discriminate Hkey |].
  apply call_ok in E as (? & ? & _ & _ & -> & _).
  exists h', data. split; [reflexivity |]. split; assumption.
Defined.

Lemma call_keeps_field_order_witness :
  exists h' record',
    sample_call defaults 7 {[ 7 := sample_record ]} = Ok (7, h') /\
    h' !! 7 = Some record' /\
    dict_keys record' =
      ["audio_path"; "example_id"; "num_samples"; "num_speakers"; "offset";
       "audio_data"].
Proof.
  destruct (sample_call defaults 7 {[ 7 := sample_record ]}) as [[l h']|e] eqn:E;
    [| vm_compute in E; discriminate E].
  destruct (call_keeps_field_order
              sample_read sample_np_array_object sample_object_add
              defaults 7 {[ 7 := sample_record ]} l h' E)
    as (record & record' & Hrecord & Hh' & Hkeys & _).
  rewrite lookup_singleton_eq in Hrecord. injection Hrecord as <-.
  apply call_ok in E as (? & ? & _ & _ & -> & _).
  exists h', record'. split; [reflexivity |]. split; [assumption |].
  rewrite Hkeys. reflexivity.
Defined.

Lemma image_without_component_witness :
  sample_call {| observation := true; speech_source := true;
                 sync_speech_source := true;
                 speech_reverberation_early := false;
                 speech_reverberation_tail := true;
                 speech_image := true; noise_image := true; rir := false |}
              7 {[ 7 := sample_record ]}
  = Err (KeyError Bundle "speech_reverberation_early").
Proof.
  edestruct (image_without_component_fails
               sample_read sample_np_array_object sample_object_add
               {| observation := true; speech_source := true;
                  sync_speech_source := true;
                  speech_reverberation_early := false;
                  speech_reverberation_tail := true;
                  speech_image := true; noise_image := true; rir := false |}
               7 {[ 7 := sample_record ]} sample_record)
    as [H _]; [..| exact (H eq_refl)];
    try (vm_compute; reflexivity).
Defined.

Lemma mapping_components_witness :
  let self := {| observation := false; speech_source := false;
                 sync_speech_source := false;
                 speech_reverberation_early := true;
                 speech_reverberation_tail := true;
                 speech_image := true; noise_image := false; rir := false |} in
  let record :=
    [("audio_path",
      VDict [("speech_reverberation_early", VDict [("ch0", VStr "e0.wav")]);
             ("speech_reverberation_tail", VDict [("ch0", VStr "t0.wav")])])] in
  sample_call self 7 {[ 7 := record ]}
  = Err (TypeError "unsupported operand type(s) for +").
Proof.
  intros self record.
  eapply (mapping_components_do_not_add
            sample_read sample_np_array_object sample_object_add
            self 7 {[ 7 := record ]} record);
    try (vm_compute; reflexivity).
Defined.

Lemma first_requested_stream_witness :
  sample_call defaults 7 {[ 7 := lost_observation_record ]}
  = Err (RuntimeError "Error opening lost.wav: System error.").
Proof.
  eapply (first_requested_stream_decides
            sample_read sample_np_array_object sample_object_add
            defaults 7 {[ 7 := lost_observation_record ]}
            lost_observation_record _ "observation");
    try (vm_compute; reflexivity).
Defined.

Lemma mono_files_witness :
  sample_load (VSeq PyList [VStr "s0.wav"; VStr "s1.wav"])
  = Ok (VArr [2; 3] (VNum <$> [10; 20; 30; 40; 50; 60]%float)).
Proof.
  refine (proj2 (mono_files_have_no_channel_axis sample_read sample_np_array_object)
            PyList [VStr "s0.wav"; VStr "s1.wav"] 3
            [[10; 20; 30]; [40; 50; 60]]%float _ _).
  - discriminate.
  - repeat constructor.
Defined.

Lemma loader_reads_only_the_references_witness :
  _rec_audio_read sample_read sample_np_array_object (VStr "s0.wav")
  = _rec_audio_read
      (fun file => match file with
                   | VStr "obs.wav" => Err (OSError "obs.wav")
                   | _ => sample_read file
                   end)
      sample_np_array_object (VStr "s0.wav").
Proof.
  apply loader_reads_only_the_references.
  intros leaf Hleaf. simpl in Hleaf.
  apply list_elem_of_singleton in Hleaf as ->. reflexivity.
Defined.

(** Against C4 as the specification words it: early reverberation for two
    speakers, the tail as one two-channel file.  The call returns;
    [speech_image[0]] is [early[0]] plus the whole tail, which is not
    [early[0] + tail[0]]. *)
Lemma speech_image_is_not_speakerwise :
  exists h' data early tail image,
    sample_call defaults 7 {[ 7 := whole_tail_record ]} = Ok (7, h') /\
    h' !! 7 = Some (dict_set "audio_data" (VDict data) whole_tail_record) /\
    dict_get "speech_reverberation_early" data = Some early /\
    dict_get "speech_reverberation_tail" data = Some tail /\
    dict_get "speech_image" data = Some image /\
    np_index early 0 = Some (VArr [2; 3] (VNum <$> [1; 3; 5; 2; 4; 6]%float)) /\
    np_index tail 0 = Some (VArr [3] (VNum <$> [100; 300; 500]%float)) /\
    np_index image 0
      = Some (VArr [2; 3] (VNum <$> [101; 303; 505; 202; 404; 606]%float)) /\
    py_add sample_object_add
      (VArr [2; 3] (VNum <$> [1; 3; 5; 2; 4; 6]%float))
      (VArr [3] (VNum <$> [100; 300; 500]%float))
    = Ok (VArr [2; 3] (VNum <$> [101; 303; 505; 102; 304; 506]%float)) /\
    VArr [2; 3] (VNum <$> [101; 303; 505; 202; 404; 606]%float)
    <> VArr [2; 3] (VNum <$> [101; 303; 505; 102; 304; 506]%float).
Proof.
  do 5 eexists.
  split; [vm_compute; reflexivity |].
  split; [vm_compute; reflexivity |].
  split; [vm_compute; reflexivity |].
  split; [vm_compute; reflexivity |].
  split; [vm_compute; reflexivity |].
  split; [vm_compute; reflexivity |].
  split; [vm_compute; reflexivity |].
  split; [vm_compute; reflexivity |].
  split; [vm_compute; reflexivity |].
  vm_compute. discriminate.
Qed.

(** Against C7 as the specification words it: a mono file is returned on
    one axis, not as [(channels, samples)]. *)
Lemma mono_leaf_has_one_axis :
  sample_read (VStr "s0.wav") = Ok ([3], [10; 20; 30]%float) /\
  sample_load (VStr "s0.wav") = Ok (VArr [3] (VNum <$> [10; 20; 30]%float)) /\
  (forall channels samples : nat, [3] <> [channels; samples]).
Proof.
  split; [reflexivity |]. split; [vm_compute; reflexivity |]. discriminate.
Qed.

Lemma broadcasting_witness :
  exists cells,
    py_add sample_object_add
      (VArr [2; 2; 3] (VNum <$> [1; 3; 5; 2; 4; 6; 7; 9; 11; 8; 10; 12]%float))
      (VArr [1; 2; 3] (VNum <$> [100; 300; 500; 200; 400; 600]%float))
    = Ok (VArr [2; 2; 3] cells) /\
    cells !! 6 = Some (VNum 107%float).
Proof.
  edestruct (components_are_added_by_broadcasting
               sample_read sample_np_array_object sample_object_add
               defaults 7 {[ 7 := one_tail_record ]} one_tail_record)
    as [_ Hfit]; try (vm_compute; reflexivity).
  destruct Hfit as (sh & Hsh & _ & Hcells).
  { intros (i & a & b & Ha & Hb & Hab & Ha1 & Hb1).
    destruct i as [|[|[|i]]]; simpl in Ha, Hb; try discriminate;
      injection Ha as <-; injection Hb as <-; lia. }
  vm_compute in Hsh. injection Hsh as <-.
  destruct (Hcells [1; 3; 5; 2; 4; 6; 7; 9; 11; 8; 10; 12]%float
                   [100; 300; 500; 200; 400; 600]%float
                   eq_refl eq_refl eq_refl eq_refl)
    as (cells & Hsum & _ & _ & Hget).
  exists cells. split; [exact Hsum |].
  rewrite (Hget 6) by (simpl; lia). vm_compute. reflexivity.
Defined.
